(** * powerquery-parser: the parser context workbook and the type-name renderer

    A shallow embedding of [src/parser/context.ts] (the bookkeeping of open
    contexts and closed ast nodes kept while a document is parsed) and of the
    [TypeUtils.nameOf] renderer exercised by the test-suite.

    JavaScript objects that the code mutates through shared references (context
    [Node]s and [Ast.TNode]s) live in an explicit heap, and every map of the
    session stores references into that heap.  Every [number] is a [Z]; the
    loss of precision of doubles above [2^53] is outside the model. *)

From Stdlib Require Import ZArith String List Bool Lia.
From stdpp Require Import base tactics option list gmap fin_maps strings.

Open Scope Z_scope.

(** References to heap-allocated objects. *)
Abbreviation NodeRef := positive (only parsing).
Abbreviation AstRef := positive (only parsing).

(* ===================================================================== *)
(** ** Data model *)
(* ===================================================================== *)

(** Modelled from the spec: the lexer's [Token] declaration is not part of the
    sources; a token carries a kind and a literal value. *)
Record Token := mkToken { tokenKind : string; tokenData : string }.

Module Ast.

(** Modelled from the spec: the [Ast.NodeKind] enumeration is declared outside
    the sources; these are the grammar productions the documentation names. *)
Inductive NodeKind :=
| ListExpression
| Csv
| Constant
| LiteralExpression
| RecordLiteral
| ParenthesizedExpression.

(** Modelled from the spec: the [Ast.TNode] declaration is outside the sources.
    The fields are the ones [context.ts] reads ([id], [isLeaf]) or writes
    ([maybeAttributeIndex], through [TypeUtils.StripReadonly]), and the kind. *)
Record TNode := mkTNode {
  id : Z;
  kind : NodeKind;
  isLeaf : bool;
  maybeAttributeIndex : option Z
}.

Definition with_maybeAttributeIndex (a : TNode) (i : option Z) : TNode :=
  mkTNode (id a) (kind a) (isLeaf a) i.

End Ast.

Module CommonError.
Inductive t := InvariantError (message : string).
Arguments InvariantError message%_string.
End CommonError.

Module Context.

(** [interface Node] *)
Record Node := mkNode {
  id : Z;
  kind : Ast.NodeKind;
  tokenIndexStart : Z;
  maybeTokenStart : option Token;
  attributeCounter : Z;
  maybeAstNode : option AstRef;
  maybeAttributeIndex : option Z
}.

Definition with_attributeCounter (n : Node) (c : Z) : Node :=
  mkNode (id n) (kind n) (tokenIndexStart n) (maybeTokenStart n) c
         (maybeAstNode n) (maybeAttributeIndex n).

Definition with_maybeAstNode (n : Node) (a : option AstRef) : Node :=
  mkNode (id n) (kind n) (tokenIndexStart n) (maybeTokenStart n)
         (attributeCounter n) a (maybeAttributeIndex n).

Definition with_maybeAttributeIndex (n : Node) (i : option Z) : Node :=
  mkNode (id n) (kind n) (tokenIndexStart n) (maybeTokenStart n)
         (attributeCounter n) (maybeAstNode n) i.

(** [interface Root] *)
Record Root := mkRoot { maybeNode : option NodeRef }.

(** [NodeIdMap.Collection], with the four maps [empty] creates. *)
Record Collection := mkCollection {
  astNodeById : gmap Z AstRef;
  contextNodeById : gmap Z NodeRef;
  parentIdById : gmap Z Z;
  childIdsById : gmap Z (list Z)
}.

(** [interface State] *)
Record State := mkState {
  root : Root;
  nodeIdMapCollection : Collection;
  idCounter : Z;
  leafNodeIds : list Z
}.

(** The object store shared by every session. *)
Record Heap := mkHeap {
  nodes : gmap NodeRef Node;
  asts : gmap AstRef Ast.TNode
}.

Definition emptyHeap : Heap := mkHeap ∅ ∅.

(** *** Field assignments *)

Definition with_root (s : State) (r : Root) : State :=
  mkState r (nodeIdMapCollection s) (idCounter s) (leafNodeIds s).
Definition with_collection (s : State) (c : Collection) : State :=
  mkState (root s) c (idCounter s) (leafNodeIds s).
Definition with_idCounter (s : State) (n : Z) : State :=
  mkState (root s) (nodeIdMapCollection s) n (leafNodeIds s).
Definition with_leafNodeIds (s : State) (l : list Z) : State :=
  mkState (root s) (nodeIdMapCollection s) (idCounter s) l.

Definition with_astNodeById (c : Collection) (m : gmap Z AstRef) : Collection :=
  mkCollection m (contextNodeById c) (parentIdById c) (childIdsById c).
Definition with_contextNodeById (c : Collection) (m : gmap Z NodeRef) : Collection :=
  mkCollection (astNodeById c) m (parentIdById c) (childIdsById c).
Definition with_parentIdById (c : Collection) (m : gmap Z Z) : Collection :=
  mkCollection (astNodeById c) (contextNodeById c) m (childIdsById c).
Definition with_childIdsById (c : Collection) (m : gmap Z (list Z)) : Collection :=
  mkCollection (astNodeById c) (contextNodeById c) (parentIdById c) m.

(* =================================================================== *)
(** ** A state-and-exception monad over the heap and one session *)
(* =================================================================== *)

(** An operation either returns, or throws after the mutations it had already
    performed (which is why [Thrown] carries the heap and the session too).
    [Dangling] is the result of following a reference that was never allocated;
    JavaScript cannot produce such a reference. *)
Inductive Outcome (A : Type) :=
| Returned (a : A) (h : Heap) (s : State)
| Thrown (e : CommonError.t) (h : Heap) (s : State)
| Dangling.
Arguments Returned {A} a h s.
Arguments Thrown {A} e h s.
Arguments Dangling {A}.

Definition M (A : Type) : Type := Heap → State → Outcome A.

Definition ret {A} (a : A) : M A := λ h s, Returned a h s.
Definition bind {A B} (m : M A) (f : A → M B) : M B :=
  λ h s, match m h s with
         | Returned a h' s' => f a h' s'
         | Thrown e h' s' => Thrown e h' s'
         | Dangling => Dangling
         end.
Definition throw {A} (message : string) : M A :=
  λ h s, Thrown (CommonError.InvariantError message) h s.

Arguments throw {A} message%_string.

#[export] Instance M_ret : MRet M := @ret.
#[export] Instance M_bind : MBind M := λ A B f m, bind m f.

Definition getState : M State := λ h s, Returned s h s.
Definition modifyState (f : State → State) : M unit := λ h s, Returned tt h (f s).
Definition modifyCollection (f : Collection → Collection) : M unit :=
  modifyState (λ s, with_collection s (f (nodeIdMapCollection s))).
Definition skip : M unit := ret tt.

Definition readNode (r : NodeRef) : M Node :=
  λ h s, match nodes h !! r with Some n => Returned n h s | None => Dangling end.
Definition writeNode (r : NodeRef) (n : Node) : M unit :=
  λ h s, Returned tt (mkHeap (<[r := n]> (nodes h)) (asts h)) s.
(** An object literal: a new object at a reference nothing else holds. *)
Definition newNode (n : Node) : M NodeRef :=
  λ h s, let r := fresh (dom (nodes h)) in
         Returned r (mkHeap (<[r := n]> (nodes h)) (asts h)) s.

Definition readAst (r : AstRef) : M Ast.TNode :=
  λ h s, match asts h !! r with Some a => Returned a h s | None => Dangling end.
Definition writeAst (r : AstRef) (a : Ast.TNode) : M unit :=
  λ h s, Returned tt (mkHeap (nodes h) (<[r := a]> (asts h))) s.
Definition newAst (a : Ast.TNode) : M AstRef :=
  λ h s, let r := fresh (dom (asts h)) in
         Returned r (mkHeap (nodes h) (<[r := a]> (asts h))) s.

(* =================================================================== *)
(** ** JavaScript primitives *)
(* =================================================================== *)

(** [Array.prototype.indexOf]: position of the first occurrence, [None] for -1. *)
Fixpoint indexOf (l : list Z) (x : Z) : option nat :=
  match l with
  | [] => None
  | y :: l' => if decide (y = x) then Some O else S <$> indexOf l' x
  end.

(** [[...l.slice(0, i), ...l.slice(i + 1)]] *)
Definition removeAt (l : list Z) (i : nat) : list Z := take i l ++ drop (S i) l.

(** [[...l.slice(0, i), x, ...l.slice(i + 1)]] *)
Definition replaceAt (l : list Z) (i : nat) (x : Z) : list Z :=
  take i l ++ x :: drop (S i) l.

(** Truthiness of a [number] used as a condition: [0] is falsy.  (An
    [Option<number>] is falsy when it is [undefined] or [0].) *)
Definition truthy (n : Z) : bool := negb (n =? 0).

(* =================================================================== *)
(** ** NodeIdMap helpers *)
(* =================================================================== *)

Module NodeIdMap.

(** [NodeIdMap.TXorNode]: a handle on either realm. *)
Inductive TXorNode :=
| XorAst (node : AstRef)
| XorContext (node : NodeRef).

(** Modelled from the spec: [NodeIdMap.expectChildIds] is not part of the
    sources.  A lookup either returns the requested entity or fails with an
    [InvariantError] naming the missing id. *)
Definition expectChildIds (childIdsById : gmap Z (list Z)) (nodeId : Z) : M (list Z) :=
  match childIdsById !! nodeId with
  | Some childIds => mret childIds
  | None => throw "nodeId is missing from childIdsById"
  end.

(** Modelled from the spec: [NodeIdMap.expectContextNode] is not part of the
    sources; same contract as [expectChildIds]. *)
Definition expectContextNode (contextNodeById : gmap Z NodeRef) (nodeId : Z) : M NodeRef :=
  match contextNodeById !! nodeId with
  | Some node => mret node
  | None => throw "nodeId is missing from contextNodeById"
  end.

(** Modelled from the spec: [NodeIdMap.expectXorNode] is not part of the
    sources.  The handle names the closed ast node or the still-open context
    registered under the id, and the lookup fails when there is neither. *)
Definition expectXorNode (c : Collection) (nodeId : Z) : M TXorNode :=
  match astNodeById c !! nodeId with
  | Some astNode => mret (XorAst astNode)
  | None =>
      match contextNodeById c !! nodeId with
      | Some contextNode => mret (XorContext contextNode)
      | None => throw "nodeId is missing from astNodeById and contextNodeById"
      end
  end.



End NodeIdMap.

(* =================================================================== *)
(** ** context.ts *)
(* =================================================================== *)

Definition empty : State :=
  mkState (mkRoot None) (mkCollection ∅ ∅ ∅ ∅) 0 [].

Definition startContext (nodeKind : Ast.NodeKind) (tokenIndexStart : Z)
    (maybeTokenStart : option Token) (maybeParentNode : option NodeRef) : M NodeRef :=
  state ← getState;
  let nodeId := idCounter state + 1 in
  modifyState (λ s, with_idCounter s (idCounter s + 1));;
  maybeAttributeIndex ←
    match maybeParentNode with
    | Some parentNode =>
        parent ← readNode parentNode;
        let parentId := id parent in
        writeNode parentNode (with_attributeCounter parent (attributeCounter parent + 1));;
        modifyCollection (λ c, with_parentIdById c (<[nodeId := parentId]> (parentIdById c)));;
        modifyCollection (λ c,
          match childIdsById c !! parentId with
          | Some existingChildren =>
              with_childIdsById c (<[parentId := existingChildren ++ [nodeId]]> (childIdsById c))
          | None =>
              with_childIdsById c (<[parentId := [nodeId]]> (childIdsById c))
          end);;
        mret (Some (attributeCounter parent))
    | None => mret None
    end;
  node ← newNode (mkNode nodeId nodeKind tokenIndexStart maybeTokenStart 0 None
                         maybeAttributeIndex);
  modifyCollection (λ c, with_contextNodeById c (<[nodeId := node]> (contextNodeById c)));;
  mret node.

Definition endContext (contextNode : NodeRef) (astNode : AstRef) : M (option NodeRef) :=
  context ← readNode contextNode;
  ast ← readAst astNode;
  if bool_decide (maybeAstNode context ≠ None) then
    throw "context was already ended"
  else if bool_decide (id context ≠ Ast.id ast) then
    throw "contextNode and astNode have different nodeIds"
  else
    (if Ast.isLeaf ast
     then modifyState (λ s, with_leafNodeIds s (leafNodeIds s ++ [id context]))
     else skip);;
    state ← getState;
    let c := nodeIdMapCollection state in
    let maybeParentId := parentIdById c !! id context in
    let maybeParentNode :=
      match maybeParentId with
      | Some parentId => contextNodeById c !! parentId
      | None => None
      end in
    writeNode contextNode (with_maybeAstNode context (Some astNode));;
    let existed := bool_decide (is_Some (contextNodeById c !! id context)) in
    modifyCollection (λ c, with_contextNodeById c (delete (id context) (contextNodeById c)));;
    if negb existed then
      throw "can't end a context that doesn't belong to state"
    else
      modifyCollection (λ c, with_astNodeById c (<[Ast.id ast := astNode]> (astNodeById c)));;
      mret maybeParentNode.

Definition removeOrReplaceChildId (parentId childId : Z) (maybeReplacementId : option Z)
    : M unit :=
  state ← getState;
  childIds ← NodeIdMap.expectChildIds (childIdsById (nodeIdMapCollection state)) parentId;
  match indexOf childIds childId with
  | None => throw "childId isn't a child of parentId"
  | Some replacementIndex =>
      let remove :=
        modifyCollection (λ c,
          with_childIdsById c (<[parentId := removeAt childIds replacementIndex]> (childIdsById c))) in
      match maybeReplacementId with
      | Some replacementId =>
          if truthy replacementId then
            modifyCollection (λ c,
              with_childIdsById c
                (<[parentId := replaceAt childIds replacementIndex replacementId]> (childIdsById c)));;
            modifyCollection (λ c,
              with_parentIdById c (<[replacementId := parentId]> (parentIdById c)))
          else remove
      | None => remove
      end
  end.

Definition deleteContext (nodeId : Z) : M (option NodeRef) :=
  state ← getState;
  match contextNodeById (nodeIdMapCollection state) !! nodeId with
  | None => throw "nodeId not in state."
  | Some node =>
      (match indexOf (leafNodeIds state) nodeId with
       | Some leafIndex =>
           modifyState (λ s, with_leafNodeIds s (removeAt (leafNodeIds state) leafIndex))
       | None => skip
       end);;
      let maybeParentId := parentIdById (nodeIdMapCollection state) !! nodeId in
      let maybeChildIds := childIdsById (nodeIdMapCollection state) !! nodeId in
      (match maybeChildIds with
       | Some childIds =>
           match childIds with
           | [childId] =>
               (match maybeParentId with
                | None =>
                    match contextNodeById (nodeIdMapCollection state) !! childId with
                    | Some childContext =>
                        modifyState (λ s, with_root s (mkRoot (Some childContext)))
                    | None => skip
                    end
                | Some parentId =>
                    removeOrReplaceChildId parentId nodeId (Some childId)
                end);;
               state' ← getState;
               childXorNode ← NodeIdMap.expectXorNode (nodeIdMapCollection state') childId;
               deleted ← readNode node;
               match childXorNode with
               | NodeIdMap.XorAst child =>
                   ast ← readAst child;
                   writeAst child
                     (Ast.with_maybeAttributeIndex ast (maybeAttributeIndex deleted))
               | NodeIdMap.XorContext child =>
                   context ← readNode child;
                   writeNode child
                     (with_maybeAttributeIndex context (maybeAttributeIndex deleted))
               end
           | _ => throw "childIds.length !== 0"
           end
       | None =>
           match maybeParentId with
           | Some parentId =>
               if truthy parentId
               then removeOrReplaceChildId parentId nodeId None
               else skip
           | None => skip
           end
       end);;
      modifyCollection (λ c, with_contextNodeById c (delete nodeId (contextNodeById c)));;
      modifyCollection (λ c, with_childIdsById c (delete nodeId (childIdsById c)));;
      modifyCollection (λ c, with_parentIdById c (delete nodeId (parentIdById c)));;
      match maybeParentId with
      | Some parentId =>
          state' ← getState;
          parent ← NodeIdMap.expectContextNode (contextNodeById (nodeIdMapCollection state'))
                                               parentId;
          mret (Some parent)
      | None => mret None
      end
  end.


(* =================================================================== *)
(** ** The parser driver *)
(* =================================================================== *)

(** The calls a driver makes on a session. *)
Inductive Op :=
| OpStart (nodeKind : Ast.NodeKind) (tokenIndexStart : Z) (maybeTokenStart : option Token)
          (maybeParentNode : option NodeRef)
| OpEnd (contextNode : NodeRef) (astNode : AstRef)
| OpDelete (nodeId : Z)
| OpNewAst (astNode : Ast.TNode).

Definition runOp (op : Op) : M unit :=
  match op with
  | OpStart nodeKind tokenIndexStart maybeTokenStart maybeParentNode =>
      startContext nodeKind tokenIndexStart maybeTokenStart maybeParentNode;; mret tt
  | OpEnd contextNode astNode => endContext contextNode astNode;; mret tt
  | OpDelete nodeId => deleteContext nodeId;; mret tt
  | OpNewAst astNode => newAst astNode;; mret tt
  end.

(** The heap and session an operation leaves behind, whether it returned or
    threw (a driver may catch the error and go on). *)
Definition after {A} (o : Outcome A) (w : Heap * State) : Heap * State :=
  match o with
  | Returned _ h s => (h, s)
  | Thrown _ h s => (h, s)
  | Dangling => w
  end.

Fixpoint runOps (ops : list Op) (w : Heap * State) : Heap * State :=
  match ops with
  | [] => w
  | op :: ops' => runOps ops' (after (runOp op w.1 w.2) w)
  end.

(** The number of contexts the driver starts beneath the context object [r]. *)
Definition startsBeneath (r : NodeRef) (op : Op) : bool :=
  match op with
  | OpStart _ _ _ (Some parentNode) => bool_decide (parentNode = r)
  | _ => false
  end.

Definition countStartsBeneath (r : NodeRef) (ops : list Op) : nat :=
  length (filter (λ op, startsBeneath r op = true) ops).

(** The context objects an operation is handed by the driver. *)
Definition nodeArguments (op : Op) : list NodeRef :=
  match op with
  | OpStart _ _ _ (Some parentNode) => [parentNode]
  | OpEnd contextNode _ => [contextNode]
  | _ => []
  end.

(** The driver closes a context with an ast node it builds for it. *)
Definition closeAs (contextNode : NodeRef) (kind : Ast.NodeKind) (isLeaf : bool)
    : M (option NodeRef) :=
  context ← readNode contextNode;
  astNode ← newAst (Ast.mkTNode (id context) kind isLeaf (maybeAttributeIndex context));
  endContext contextNode astNode.

(** The driver installs a context it started without a parent as the root. *)
Definition startRoot (nodeKind : Ast.NodeKind) (tokenIndexStart : Z)
    (maybeTokenStart : option Token) : M NodeRef :=
  node ← startContext nodeKind tokenIndexStart maybeTokenStart None;
  modifyState (λ s, with_root s (mkRoot (Some node)));;
  mret node.

(** Scenario S2, the document [{1,]: [tokenIndex k] and [token k] are the
    token position and token the driver records on the k-th context. *)
Definition scenarioS2 (tokenIndex : Z → Z) (token : Z → option Token) : M (list NodeRef) :=
  n1 ← startRoot Ast.ListExpression (tokenIndex 1) (token 1);
  n2 ← startContext Ast.Constant (tokenIndex 2) (token 2) (Some n1);
  closeAs n2 Ast.Constant true;;
  n3 ← startContext Ast.Csv (tokenIndex 3) (token 3) (Some n1);
  n4 ← startContext Ast.LiteralExpression (tokenIndex 4) (token 4) (Some n3);
  closeAs n4 Ast.LiteralExpression true;;
  n5 ← startContext Ast.Constant (tokenIndex 5) (token 5) (Some n3);
  closeAs n5 Ast.Constant true;;
  closeAs n3 Ast.Csv false;;
  n6 ← startContext Ast.Csv (tokenIndex 6) (token 6) (Some n1);
  mret [n1; n2; n3; n4; n5; n6].

(** *** Well-formed worlds and what a reader of a session sees *)

(** Every reference a session holds resolves in the heap. *)
Definition closed (h : Heap) (s : State) : Prop :=
  map_Forall (λ _ r, is_Some (nodes h !! r)) (contextNodeById (nodeIdMapCollection s))
  ∧ map_Forall (λ _ r, is_Some (asts h !! r)) (astNodeById (nodeIdMapCollection s))
  ∧ match maybeNode (root s) with
    | Some r => is_Some (nodes h !! r)
    | None => True
    end.

#[export] Instance closed_dec h s : Decision (closed h s).
Proof. unfold closed. destruct (maybeNode (root s)); apply _. Defined.

(** The [maybeAttributeIndex] of the node an id resolves to, closed ast node
    first (as [NodeIdMap.expectXorNode] does). *)
Definition attributeIndexOf (h : Heap) (s : State) (nodeId : Z) : option (option Z) :=
  match astNodeById (nodeIdMapCollection s) !! nodeId with
  | Some r => Ast.maybeAttributeIndex <$> asts h !! r
  | None =>
      match contextNodeById (nodeIdMapCollection s) !! nodeId with
      | Some r => maybeAttributeIndex <$> nodes h !! r
      | None => None
      end
  end.




End Context.

(* ===================================================================== *)
(** ** Type descriptors and their canonical names *)
(* ===================================================================== *)

(** The [Type] namespace of the language module, as the test-suite of
    [TypeUtils.nameOf] uses it. *)
Module PqType.

Inductive TypeKind :=
| Any | AnyNonNull | Binary | Date | DateTime | DateTimeZone | Duration
| Function | List | Logical | None_ | Null | Number | Record_ | Table | Type_
| Action | Time | NotApplicable | Unknown | Text.

(** A parameter of a function descriptor, with the fields the tests fill in. *)
Record FunctionParameter := mkFunctionParameter {
  isNullable : bool;
  isOptional : bool;
  maybeType : option TypeKind;
  nameLiteral : string
}.

(** The descriptor variants; the fields of a record or table keep their
    insertion order. *)
#[warnings="-register-all"]
Inductive TType :=
| Primitive (kind : TypeKind) (isNullable : bool)
| AnyUnion (unionedTypePairs : list TType)
| DefinedFunction (isNullable : bool) (parameters : list FunctionParameter) (returnType : TType)
| DefinedList (isNullable : bool) (elements : list TType)
| DefinedListType (isNullable : bool) (itemTypes : list TType)
| DefinedRecord (isNullable : bool) (fields : list (string * TType)) (isOpen : bool)
| DefinedTable (isNullable : bool) (fields : list (string * TType)) (isOpen : bool)
| FunctionType (isNullable : bool) (parameters : list FunctionParameter) (returnType : TType)
| ListType (isNullable : bool) (itemType : TType)
| PrimaryPrimitiveType (isNullable : bool) (primitiveType : TType)
| RecordType (isNullable : bool) (fields : list (string * TType)) (isOpen : bool)
| TableType (isNullable : bool) (fields : list (string * TType)) (isOpen : bool)
| TableTypePrimaryExpression (isNullable : bool) (primaryExpression : TType).

Definition AnyInstance : TType := Primitive Any false.
Definition NumberInstance : TType := Primitive Number false.
Definition TextInstance : TType := Primitive Text false.
Definition ListInstance : TType := Primitive List false.
Definition NullableAnyInstance : TType := Primitive Any true.
Definition NullableTextInstance : TType := Primitive Text true.

End PqType.

Module TypeUtils.
Import PqType.
Local Open Scope string_scope.

(** Modelled from the spec: [TypeUtils.nameOf] and its helpers are not part of
    the sources, only their test-suite is.  A primitive renders as its literal
    word. *)
Definition nameOfTypeKind (kind : TypeKind) : string :=
  match kind with
  | Any => "any" | AnyNonNull => "anynonnull" | Binary => "binary" | Date => "date"
  | DateTime => "datetime" | DateTimeZone => "datetimezone" | Duration => "duration"
  | Function => "function" | List => "list" | Logical => "logical" | None_ => "none"
  | Null => "null" | Number => "number" | Record_ => "record" | Table => "table"
  | Type_ => "type" | Action => "action" | Time => "time"
  | NotApplicable => "not applicable" | Unknown => "unknown" | Text => "text"
  end.

(** Modelled from the spec: a parameter renders as
    [name: [optional ][nullable ]type].  The spec is silent on a parameter
    without a type; M reads it as [any]. *)
Definition nameOfFunctionParameter (parameter : FunctionParameter) : string :=
  nameLiteral parameter +:+ ":"
  +:+ (if isOptional parameter then " optional" else "")
  +:+ (if isNullable parameter then " nullable" else "")
  +:+ " " +:+ nameOfTypeKind (default Any (maybeType parameter)).

Definition nameOfFunctionParameters (parameters : list FunctionParameter) : string :=
  "(" +:+ String.concat ", " (map nameOfFunctionParameter parameters) +:+ ")".

(** The bracket group of a record or table: [[k: T, ...]], with a trailing
    [...] when open. *)
Definition nameOfFieldGroup (fields : list string) (isOpen : bool) : string :=
  match fields, isOpen with
  | [], false => "[]"
  | [], true => "[...]"
  | _, false => "[" +:+ String.concat ", " fields +:+ "]"
  | _, true => "[" +:+ String.concat ", " fields +:+ ", ...]"
  end.

Definition nullablePrefix (isNullable : bool) (name : string) : string :=
  if isNullable then "nullable " +:+ name else name.

(** Modelled from the spec: the rendering contracts of section 4.5, variant by
    variant. *)
Fixpoint nameOf (type : TType) : string :=
  let nameOfFields (fields : list (string * TType)) : list string :=
    map (λ field, field.1 +:+ ": " +:+ nameOf field.2) fields in
  match type with
  | Primitive kind isNullable => nullablePrefix isNullable (nameOfTypeKind kind)
  | AnyUnion unionedTypePairs => String.concat " | " (map nameOf unionedTypePairs)
  | DefinedFunction isNullable parameters returnType =>
      nullablePrefix isNullable
        (nameOfFunctionParameters parameters +:+ " => " +:+ nameOf returnType)
  | DefinedList isNullable elements =>
      nullablePrefix isNullable ("{" +:+ String.concat ", " (map nameOf elements) +:+ "}")
  | DefinedListType isNullable itemTypes =>
      nullablePrefix isNullable
        ("type {" +:+ String.concat ", " (map nameOf itemTypes) +:+ "}")
  | DefinedRecord isNullable fields isOpen =>
      nullablePrefix isNullable (nameOfFieldGroup (nameOfFields fields) isOpen)
  | DefinedTable isNullable fields isOpen =>
      nullablePrefix isNullable ("table " +:+ nameOfFieldGroup (nameOfFields fields) isOpen)
  | FunctionType isNullable parameters returnType =>
      nullablePrefix isNullable
        ("type function " +:+ nameOfFunctionParameters parameters +:+ " "
         +:+ nameOf returnType)
  | ListType isNullable itemType =>
      nullablePrefix isNullable ("type {" +:+ nameOf itemType +:+ "}")
  | PrimaryPrimitiveType isNullable primitiveType =>
      nullablePrefix isNullable ("type " +:+ nameOf primitiveType)
  | RecordType isNullable fields isOpen =>
      nullablePrefix isNullable ("type " +:+ nameOfFieldGroup (nameOfFields fields) isOpen)
  | TableType isNullable fields isOpen =>
      nullablePrefix isNullable
        ("type table " +:+ nameOfFieldGroup (nameOfFields fields) isOpen)
  | TableTypePrimaryExpression isNullable primaryExpression =>
      nullablePrefix isNullable ("type table " +:+ nameOf primaryExpression)
  end.

(** The parameter list of the function tests: every flavour of parameter. *)
Definition allParameterFlavors : list FunctionParameter :=
  [ mkFunctionParameter false false (Some Number) "param1";
    mkFunctionParameter true false (Some Number) "param2";
    mkFunctionParameter false true (Some Number) "param3";
    mkFunctionParameter true true (Some Number) "param4" ].

End TypeUtils.

Import Context.

(* ===================================================================== *)
(** ** Vocabulary of the statements *)
(* ===================================================================== *)

(** *** Worlds the driver reaches, used as concrete inputs *)

(** A root context whose only child was started and then deleted. *)
Definition worldChildDeleted : Heap * State :=
  runOps [OpStart Ast.ListExpression 0 None None;
          OpStart Ast.Csv 1 None (Some 1%positive);
          OpDelete 2]
         (emptyHeap, empty).

(** A root context that was started and deleted: the driver still holds the
    context object (reference 1), and has built a leaf ast node for it. *)
Definition worldRootDeleted : Heap * State :=
  runOps [OpStart Ast.Constant 0 None None;
          OpDelete 1;
          OpNewAst (Ast.mkTNode 1 Ast.Constant true None)]
         (emptyHeap, empty).

(** An open root context (id 1) with one child (id 2) already closed as a
    leaf. *)
Definition worldClosedChild : Heap * State :=
  match (root ← startRoot Ast.ParenthesizedExpression 0 None;
         child ← startContext Ast.LiteralExpression 1 None (Some root);
         closeAs child Ast.LiteralExpression true) emptyHeap empty with
  | Returned _ h s => (h, s)
  | _ => (emptyHeap, empty)
  end.

(** An open root context (id 1) with one open child (id 2). *)
Definition worldOpenChild : Heap * State :=
  match (root ← startRoot Ast.ParenthesizedExpression 0 None;
         startContext Ast.LiteralExpression 1 None (Some root)) emptyHeap empty with
  | Returned _ h s => (h, s)
  | _ => (emptyHeap, empty)
  end.

(** Three generations: an open root (id 1), under it a closed leaf (id 2), an
    open wrapper (id 3) and an open sibling (id 5); under the wrapper a single
    closed leaf (id 4). *)
Definition worldThreeGenerations : Heap * State :=
  match (root ← startRoot Ast.ListExpression 0 None;
         first ← startContext Ast.Constant 0 None (Some root);
         closeAs first Ast.Constant true;;
         wrapper ← startContext Ast.ParenthesizedExpression 1 None (Some root);
         inner ← startContext Ast.LiteralExpression 1 None (Some wrapper);
         closeAs inner Ast.LiteralExpression true;;
         startContext Ast.Csv 2 None (Some root)) emptyHeap empty with
  | Returned _ h s => (h, s)
  | _ => (emptyHeap, empty)
  end.

(** *** deleteContext *)

(** The leaf list once [nodeId] is taken out of it. *)
Definition leavesWithout (leaves : list Z) (nodeId : Z) : list Z :=
  match indexOf leaves nodeId with
  | Some leafIndex => removeAt leaves leafIndex
  | None => leaves
  end.

(** What is left of a session once [nodeId] is deleted, given the root, the
    parent map and the children map the deletion had reached before the entries
    of [nodeId] are dropped. *)
Definition afterDelete (s : State) (nodeId : Z) (r : Root) (parents : gmap Z Z)
    (children : gmap Z (list Z)) : State :=
  mkState r
    (mkCollection (astNodeById (nodeIdMapCollection s))
                  (delete nodeId (contextNodeById (nodeIdMapCollection s)))
                  (delete nodeId parents)
                  (delete nodeId children))
    (idCounter s)
    (leavesWithout (leafNodeIds s) nodeId).

(** *** What one operation does to the heap *)

(** The amount by which [op] raises the attribute counter of the object [r]. *)
Definition increment (r : NodeRef) (op : Op) : Z := if startsBeneath r op then 1 else 0.

(** Context objects stay allocated; their attribute counter grows by
    [increment]; and an object that is written is one the driver passed in or
    one registered in the session. *)
Definition nodesEffect (h : Heap) (s : State) (op : Op) (h' : Heap) : Prop :=
  ∀ r n, nodes h !! r = Some n →
    ∃ n', nodes h' !! r = Some n'
      ∧ attributeCounter n' = attributeCounter n + increment r op
      ∧ (n' = n ∨ r ∈ nodeArguments op
         ∨ ∃ i, contextNodeById (nodeIdMapCollection s) !! i = Some r).

(** Ast objects are left alone, except for the closed single child of a deleted
    context, which is given the attribute index of the deleted context. *)
Definition astsEffect (h : Heap) (s : State) (op : Op) (h' : Heap) : Prop :=
  ∀ r a, asts h !! r = Some a →
    match op with
    | OpDelete nodeId =>
        asts h' !! r = Some a
        ∨ ∃ childId node deleted,
            childIdsById (nodeIdMapCollection s) !! nodeId = Some [childId]
            ∧ astNodeById (nodeIdMapCollection s) !! childId = Some r
            ∧ contextNodeById (nodeIdMapCollection s) !! nodeId = Some node
            ∧ nodes h !! node = Some deleted
            ∧ asts h' !! r
              = Some (Ast.with_maybeAttributeIndex a (maybeAttributeIndex deleted))
    | _ => asts h' !! r = Some a
    end.

(** A context object registered after the operation was registered before it,
    or did not exist yet. *)
Definition registryEffect (h : Heap) (s s' : State) : Prop :=
  ∀ i r, contextNodeById (nodeIdMapCollection s') !! i = Some r →
    contextNodeById (nodeIdMapCollection s) !! i = Some r ∨ nodes h !! r = None.

(** *** Deep copies *)

(** The argument objects of the operations in [ops] did not exist in [h]. *)
Definition foreignTo (h : Heap) (ops : list Op) : Prop :=
  Forall (λ op, Forall (λ r, nodes h !! r = None) (nodeArguments op)) ops.

#[export] Instance foreignTo_dec h ops : Decision (foreignTo h ops).
Proof. unfold foreignTo. apply _. Defined.


(** The context objects of a session: the ones it registers and the one its
    root handle refers to. *)
Definition contextNodesOf (s : State) : gset NodeRef :=
  map_img (contextNodeById (nodeIdMapCollection s))
  ∪ from_option singleton ∅ (maybeNode (root s)).

(** The calls [ops] on the session of [w] are made with context nodes of that
    session: every context object handed to a call is one of [known], the
    objects the session has had so far (a node returned by [startContext] is
    registered by it, so it is among them from the next call on). *)
Fixpoint madeWithNodesOf (known : gset NodeRef) (ops : list Op) (w : Heap * State) : Prop :=
  match ops with
  | [] => True
  | op :: ops' =>
      Forall (λ r, r ∈ known) (nodeArguments op)
      ∧ madeWithNodesOf (known ∪ contextNodesOf (after (runOp op w.1 w.2) w).2) ops'
          (after (runOp op w.1 w.2) w)
  end.

#[export] Instance madeWithNodesOf_dec known ops w : Decision (madeWithNodesOf known ops w).
Proof. revert known w. induction ops; intros; simpl; apply _. Defined.



(** *** Further worlds *)

(** [worldThreeGenerations] once the driver has built the ast node that closes
    the wrapper (id 3); the new ast object is at reference 3. *)
Definition worldWrapperAst : Heap * State :=
  runOps [OpNewAst (Ast.mkTNode 3 Ast.ParenthesizedExpression false (Some 1))]
         worldThreeGenerations.

(** *** Invariants of a session *)

(** Every id registered as an open context or as a closed ast node lies between
    1 and the id counter, and no id is registered as both. *)
Definition idsAllocated (s : State) : Prop :=
  0 ≤ idCounter s
  ∧ map_Forall (λ i _, 1 ≤ i ≤ idCounter s) (contextNodeById (nodeIdMapCollection s))
  ∧ map_Forall (λ i _, 1 ≤ i ≤ idCounter s) (astNodeById (nodeIdMapCollection s))
  ∧ map_Forall (λ i _, astNodeById (nodeIdMapCollection s) !! i = None)
               (contextNodeById (nodeIdMapCollection s)).

#[export] Instance idsAllocated_dec s : Decision (idsAllocated s).
Proof. unfold idsAllocated. apply _. Defined.

(** Every registered context is an allocated object that is still open and
    carries the id it is registered under, and every registered ast node is an
    allocated object carrying the id it is registered under. *)
Definition registeredUnderOwnId (h : Heap) (s : State) : Prop :=
  map_Forall (λ i r, match nodes h !! r with
                     | Some n => id n = i ∧ maybeAstNode n = None
                     | None => False
                     end)
             (contextNodeById (nodeIdMapCollection s))
  ∧ map_Forall (λ i r, match asts h !! r with
                       | Some a => Ast.id a = i
                       | None => False
                       end)
               (astNodeById (nodeIdMapCollection s)).

#[export] Instance registeredUnderOwnId_dec h s : Decision (registeredUnderOwnId h s).
Proof.
  unfold registeredUnderOwnId. apply and_dec; apply map_Forall_dec; intros i r.
  - destruct (nodes h !! r); apply _.
  - destruct (asts h !! r); apply _.
Defined.


(** Parent-child symmetry: every id with a parent entry is non-zero and is
    listed among the children of that parent. *)
Definition parentsListChildren (s : State) : Prop :=
  0 ≤ idCounter s
  ∧ map_Forall (λ childId parentId,
                  childId ≠ 0
                  ∧ match childIdsById (nodeIdMapCollection s) !! parentId with
                    | Some childIds => childId ∈ childIds
                    | None => False
                    end)
               (parentIdById (nodeIdMapCollection s)).

#[export] Instance parentsListChildren_dec s : Decision (parentsListChildren s).
Proof.
  unfold parentsListChildren. apply and_dec; [apply _|].
  apply map_Forall_dec. intros childId parentId. apply and_dec; [apply _|].
  destruct (childIdsById (nodeIdMapCollection s) !! parentId); apply _.
Defined.

(** The operation deletes a context that has no parent entry and exactly one
    child (a root collapse). *)
Definition collapsesRoot (s : State) (op : Op) : Prop :=
  match op with
  | OpDelete nodeId =>
      parentIdById (nodeIdMapCollection s) !! nodeId = None
      ∧ match childIdsById (nodeIdMapCollection s) !! nodeId with
        | Some [_] => True
        | _ => False
        end
  | _ => False
  end.

#[export] Instance collapsesRoot_dec s op : Decision (collapsesRoot s op).
Proof.
  destruct op; simpl; try apply _. apply and_dec; [apply _|].
  destruct (childIdsById (nodeIdMapCollection s) !! nodeId) as [[|? [|? ?]]|]; apply _.
Defined.


(** A context (id 2) whose parent entry names a deleted root (id 1) under which
    the driver then started another context (id 3): the children list of 1 does
    not hold 2. *)
Definition worldStaleParent : Heap * State :=
  runOps [OpStart Ast.ParenthesizedExpression 0 None None;
          OpStart Ast.LiteralExpression 0 None (Some 1%positive);
          OpDelete 1;
          OpStart Ast.Csv 1 None (Some 1%positive)]
         (emptyHeap, empty).

(** The operations of a driver session that starts, closes, deletes and
    collapses contexts. *)
Definition sessionOps : list Op :=
  [OpStart Ast.ListExpression 0 None None;
   OpStart Ast.Constant 0 None (Some 1%positive);
   OpNewAst (Ast.mkTNode 2 Ast.Constant true (Some 0));
   OpEnd 2%positive 1%positive;
   OpStart Ast.ParenthesizedExpression 1 None (Some 1%positive);
   OpStart Ast.LiteralExpression 1 None (Some 3%positive);
   OpDelete 3;
   OpStart Ast.Csv 2 None (Some 1%positive);
   OpDelete 5;
   OpDelete 4;
   OpDelete 1].

(* ===================================================================== *)
(** * Properties *)
(* ===================================================================== *)

(** Unfolds the monad down to matches on the heap and the maps. *)
Ltac unfold_M :=
  cbv beta iota delta
    [mbind M_bind bind mret M_ret ret throw getState modifyState modifyCollection skip
     readNode writeNode newNode readAst writeAst].

(** ** Scenario S2 *)

(** C1: after scenario S2 the open contexts are 1 and 6, the closed ast nodes
    are 2, 3, 4 and 5, the children of 1 are [2, 3, 6] in that order, the leaf
    list is [2, 4, 5] and the id counter is 6; the six contexts were given the
    ids 1 to 6 in the order they were started. *)
Theorem scenarioS2_final_state (tokenIndex : Z → Z) (token : Z → option Token) :
  match scenarioS2 tokenIndex token emptyHeap empty with
  | Returned started h s =>
      dom (contextNodeById (nodeIdMapCollection s)) = {[1; 6]}
      ∧ dom (astNodeById (nodeIdMapCollection s)) = {[2; 3; 4; 5]}
      ∧ childIdsById (nodeIdMapCollection s) !! 1 = Some [2; 3; 6]
      ∧ leafNodeIds s = [2; 4; 5]
      ∧ idCounter s = 6
      ∧ (λ r, id <$> nodes h !! r) <$> started
        = [Some 1; Some 2; Some 3; Some 4; Some 5; Some 6]
  | _ => False
  end.
Proof. vm_compute. repeat split; reflexivity. Qed.

(** ** startContext *)

(** C7 (as stated, refuted): a parent context whose id is no longer in
    [contextNodeById] does not make [startContext] throw. *)
Lemma startContext_absent_parent_returns :
  let '(h, s) := worldRootDeleted in
  (id <$> nodes h !! 1%positive) = Some 1
  ∧ contextNodeById (nodeIdMapCollection s) !! 1 = None
  ∧ match startContext Ast.Csv 0 None (Some 1%positive) h s with
    | Returned _ _ s' => childIdsById (nodeIdMapCollection s') !! 1 = Some [2]
    | _ => False
    end.
Proof. vm_compute. repeat split; reflexivity. Qed.

(** C7 (amended): [startContext] never throws, whether or not the parent's id
    is registered in [contextNodeById].  It allocates the id [idCounter + 1],
    registers the new context object under it and, when a parent is given,
    records the parent's id, appends the new id to the parent's children and
    takes the parent's attribute counter as attribute index. *)
Theorem startContext_always_returns h s nodeKind tokenIndexStart maybeTokenStart
    maybeParentNode :
  (∀ parentNode, maybeParentNode = Some parentNode → is_Some (nodes h !! parentNode)) →
  ∃ node h' s' attributeIndex,
    startContext nodeKind tokenIndexStart maybeTokenStart maybeParentNode h s
      = Returned node h' s'
    ∧ idCounter s' = idCounter s + 1
    ∧ nodes h !! node = None
    ∧ nodes h' !! node
      = Some (mkNode (idCounter s + 1) nodeKind tokenIndexStart maybeTokenStart 0 None
                     attributeIndex)
    ∧ contextNodeById (nodeIdMapCollection s') !! (idCounter s + 1) = Some node
    ∧ match maybeParentNode with
      | Some parentNode =>
          ∃ parent, nodes h !! parentNode = Some parent
            ∧ attributeIndex = Some (attributeCounter parent)
            ∧ parentIdById (nodeIdMapCollection s') !! (idCounter s + 1) = Some (id parent)
            ∧ childIdsById (nodeIdMapCollection s') !! id parent
              = Some (default [] (childIdsById (nodeIdMapCollection s) !! id parent)
                      ++ [idCounter s + 1])
      | None =>
          attributeIndex = None
          ∧ parentIdById (nodeIdMapCollection s') = parentIdById (nodeIdMapCollection s)
          ∧ childIdsById (nodeIdMapCollection s') = childIdsById (nodeIdMapCollection s)
      end.
Proof.
  intros Hparent. unfold startContext. unfold_M.
  destruct maybeParentNode as [parentNode|].
  - destruct (Hparent parentNode eq_refl) as [parent Hp]. rewrite Hp. simpl.
    do 4 eexists. split; [reflexivity|]. simpl.
    split; [done|]. split.
    { apply not_elem_of_dom. rewrite dom_insert_L.
      pose proof (is_fresh (dom (<[parentNode := with_attributeCounter parent
                                     (attributeCounter parent + 1)]> (nodes h)))) as Hf.
      rewrite dom_insert_L in Hf. set_solver. }
    split; [by rewrite lookup_insert_eq|].
    split.
    { destruct (childIdsById (nodeIdMapCollection s) !! id parent); simpl;
        by rewrite lookup_insert_eq. }
    exists parent. split; [done|]. split; [done|].
    destruct (childIdsById (nodeIdMapCollection s) !! id parent) eqn:Hc; simpl;
      rewrite !lookup_insert_eq; done.
  - simpl. do 4 eexists. split; [reflexivity|]. simpl.
    split; [done|]. split; [apply not_elem_of_dom, is_fresh|].
    split; [by rewrite lookup_insert_eq|].
    split; [by rewrite lookup_insert_eq|]. done.
Qed.

Lemma startContext_always_returns_witness :
  ∃ node h' s' attributeIndex,
    startContext Ast.Csv 0 None (Some 1%positive) worldRootDeleted.1 worldRootDeleted.2
      = Returned node h' s'
    ∧ idCounter s' = idCounter worldRootDeleted.2 + 1
    ∧ nodes worldRootDeleted.1 !! node = None
    ∧ nodes h' !! node
      = Some (mkNode (idCounter worldRootDeleted.2 + 1) Ast.Csv 0 None 0 None attributeIndex)
    ∧ contextNodeById (nodeIdMapCollection s') !! (idCounter worldRootDeleted.2 + 1)
      = Some node
    ∧ ∃ parent, nodes worldRootDeleted.1 !! 1%positive = Some parent
        ∧ attributeIndex = Some (attributeCounter parent)
        ∧ parentIdById (nodeIdMapCollection s') !! (idCounter worldRootDeleted.2 + 1)
          = Some (id parent)
        ∧ childIdsById (nodeIdMapCollection s') !! id parent
          = Some (default [] (childIdsById (nodeIdMapCollection worldRootDeleted.2)
                                !! id parent)
                  ++ [idCounter worldRootDeleted.2 + 1]).
Proof.
  apply (startContext_always_returns worldRootDeleted.1 worldRootDeleted.2 Ast.Csv 0 None
           (Some 1%positive)).
  intros parentNode [= <-]. vm_compute. eauto.
Defined.

(** ** endContext *)

(** C10 (as stated, refuted): when [endContext] throws because the context is
    not registered, the leaf list and the context's [maybeAstNode] have been
    written, but the ast node has not been recorded in [astNodeById]. *)
Lemma endContext_throws_before_recording :
  let '(h, s) := worldRootDeleted in
  match endContext 1%positive 1%positive h s with
  | Thrown e h' s' =>
      e = CommonError.InvariantError "can't end a context that doesn't belong to state"
      ∧ leafNodeIds s = [] ∧ leafNodeIds s' = [1]
      ∧ (maybeAstNode <$> nodes h !! 1%positive) = Some None
      ∧ (maybeAstNode <$> nodes h' !! 1%positive) = Some (Some 1%positive)
      ∧ astNodeById (nodeIdMapCollection s') !! 1 = None
  | _ => False
  end.
Proof. vm_compute. repeat split; reflexivity. Qed.

(** C10 (amended): for an open context object whose id equals the ast node's
    but is not registered in [contextNodeById], [endContext] throws "can't end
    a context that doesn't belong to state" after it has appended the id to
    [leafNodeIds] (when the ast node is a leaf) and set the context's
    [maybeAstNode]; [astNodeById] and the rest of the session are as before. *)
Theorem endContext_not_atomic h s contextNode astNode context ast :
  nodes h !! contextNode = Some context →
  asts h !! astNode = Some ast →
  maybeAstNode context = None →
  id context = Ast.id ast →
  contextNodeById (nodeIdMapCollection s) !! id context = None →
  endContext contextNode astNode h s
  = Thrown (CommonError.InvariantError "can't end a context that doesn't belong to state")
      (mkHeap (<[contextNode := with_maybeAstNode context (Some astNode)]> (nodes h))
              (asts h))
      (with_leafNodeIds s
         (if Ast.isLeaf ast then leafNodeIds s ++ [id context] else leafNodeIds s)).
Proof.
  intros Hc Ha Hopen Hid Habsent. unfold endContext. unfold_M.
  rewrite Hc, Ha. simpl.
  rewrite bool_decide_eq_false_2 by (rewrite Hopen; naive_solver).
  rewrite bool_decide_eq_false_2 by naive_solver.
  destruct s as [r [am cm pm chm] n leaves]. simpl in *.
  destruct (Ast.isLeaf ast); simpl;
    rewrite bool_decide_eq_false_2 by (rewrite Habsent; by intros [? ?]); simpl;
    unfold with_leafNodeIds, with_collection, with_contextNodeById; simpl;
    by rewrite delete_id.
Qed.

Lemma endContext_not_atomic_witness :
  endContext 1%positive 1%positive worldRootDeleted.1 worldRootDeleted.2
  = Thrown (CommonError.InvariantError "can't end a context that doesn't belong to state")
      (mkHeap (<[1%positive := with_maybeAstNode (mkNode 1 Ast.Constant 0 None 0 None None)
                                 (Some 1%positive)]> (nodes worldRootDeleted.1))
              (asts worldRootDeleted.1))
      (with_leafNodeIds worldRootDeleted.2 (leafNodeIds worldRootDeleted.2 ++ [1])).
Proof.
  apply (endContext_not_atomic worldRootDeleted.1 worldRootDeleted.2 1%positive 1%positive
           (mkNode 1 Ast.Constant 0 None 0 None None)
           (Ast.mkTNode 1 Ast.Constant true None));
    reflexivity.
Defined.

(** ** deleteContext *)

Ltac unfold_delete :=
  unfold deleteContext, removeOrReplaceChildId, NodeIdMap.expectChildIds,
    NodeIdMap.expectContextNode, NodeIdMap.expectXorNode;
  unfold_M.

Lemma indexOf_middle (before after : list Z) (x : Z) :
  x ∉ before → indexOf (before ++ x :: after) x = Some (length before).
Proof.
  induction before as [|y before IH]; intros Hnotin; simpl.
  - by rewrite decide_True.
  - apply not_elem_of_cons in Hnotin as [Hne Hnotin].
    rewrite decide_False by done. by rewrite IH.
Qed.

Lemma removeAt_middle (before after : list Z) (x : Z) :
  removeAt (before ++ x :: after) (length before) = before ++ after.
Proof.
  unfold removeAt. rewrite take_app_length.
  replace (S (length before)) with (length before + 1)%nat by lia.
  by rewrite drop_app_add.
Qed.

Lemma replaceAt_middle (before after : list Z) (x y : Z) :
  replaceAt (before ++ x :: after) (length before) y = before ++ y :: after.
Proof.
  unfold replaceAt. rewrite take_app_length.
  replace (S (length before)) with (length before + 1)%nat by lia.
  by rewrite drop_app_add.
Qed.

Lemma deleteContext_leaf_root h s nodeId node :
  contextNodeById (nodeIdMapCollection s) !! nodeId = Some node →
  childIdsById (nodeIdMapCollection s) !! nodeId = None →
  parentIdById (nodeIdMapCollection s) !! nodeId = None →
  deleteContext nodeId h s
  = Returned None h (afterDelete s nodeId (root s) (parentIdById (nodeIdMapCollection s))
                       (childIdsById (nodeIdMapCollection s))).
Proof.
  intros Hn Hc Hp. destruct s as [r [am cm pm chm] n leaves]. simpl in *.
  unfold_delete. simpl. rewrite Hn, Hc, Hp.
  unfold afterDelete, leavesWithout. simpl.
  destruct (indexOf leaves nodeId); reflexivity.
Qed.

Lemma deleteContext_leaf_child h s nodeId node parentId parentNode before after :
  contextNodeById (nodeIdMapCollection s) !! nodeId = Some node →
  childIdsById (nodeIdMapCollection s) !! nodeId = None →
  parentIdById (nodeIdMapCollection s) !! nodeId = Some parentId →
  parentId ≠ 0 → parentId ≠ nodeId →
  contextNodeById (nodeIdMapCollection s) !! parentId = Some parentNode →
  childIdsById (nodeIdMapCollection s) !! parentId = Some (before ++ nodeId :: after) →
  nodeId ∉ before →
  deleteContext nodeId h s
  = Returned (Some parentNode) h
      (afterDelete s nodeId (root s) (parentIdById (nodeIdMapCollection s))
         (<[parentId := before ++ after]> (childIdsById (nodeIdMapCollection s)))).
Proof.
  intros Hn Hc Hp H0 Hne Hpn Hs Hi. destruct s as [r [am cm pm chm] n leaves]. simpl in *.
  unfold_delete. simpl. rewrite Hn, Hc, Hp.
  unfold truthy. rewrite (proj2 (Z.eqb_neq parentId 0)) by done. simpl.
  unfold afterDelete, leavesWithout. simpl.
  destruct (indexOf leaves nodeId); simpl; rewrite Hs; simpl;
    rewrite (indexOf_middle _ _ _ Hi); simpl;
    rewrite lookup_delete_ne by done; rewrite Hpn, removeAt_middle; reflexivity.
Qed.

Lemma deleteContext_wrong_child_count h s nodeId node childIds :
  contextNodeById (nodeIdMapCollection s) !! nodeId = Some node →
  childIdsById (nodeIdMapCollection s) !! nodeId = Some childIds →
  length childIds ≠ 1%nat →
  deleteContext nodeId h s
  = Thrown (CommonError.InvariantError "childIds.length !== 0") h
      (with_leafNodeIds s (leavesWithout (leafNodeIds s) nodeId)).
Proof.
  intros Hn Hc Hlen. destruct s as [r [am cm pm chm] n leaves]. simpl in *.
  unfold_delete. simpl. rewrite Hn, Hc.
  unfold leavesWithout, with_leafNodeIds. simpl.
  destruct childIds as [|? [|? ?]]; simpl in *; try done;
    destruct (indexOf leaves nodeId); reflexivity.
Qed.

(** C2 (the code at the failing input): a registered context whose only child
    was started and then deleted has zero children, yet deleting it throws: the
    emptied children list is still an entry of [childIdsById], so the leaf path
    of [deleteContext] is not taken. *)
Lemma deleteContext_emptied_context_throws :
  let '(h, s) := worldChildDeleted in
  is_Some (contextNodeById (nodeIdMapCollection s) !! 1)
  ∧ childIdsById (nodeIdMapCollection s) !! 1 = Some []
  ∧ match deleteContext 1 h s with
    | Thrown e _ _ => e = CommonError.InvariantError "childIds.length !== 0"
    | _ => False
    end.
Proof. vm_compute. repeat split; eauto. Qed.

(** What [deleteContext] does by the children entry of the context: for a
    context registered in [contextNodeById],
    - without an entry in [childIdsById] and without a parent, [deleteContext]
      returns nothing and only drops the context;
    - without an entry in [childIdsById] and with a parent (another registered
      context, of non-zero id, that lists it as a child), [deleteContext] returns
      the parent and takes the id out of the parent's children, order kept;
    - with an entry in [childIdsById] that does not hold exactly one child (no
      child left, or two or more), [deleteContext] throws an [InvariantError]. *)
Theorem deleteContext_by_children h s nodeId node :
  contextNodeById (nodeIdMapCollection s) !! nodeId = Some node →
  (childIdsById (nodeIdMapCollection s) !! nodeId = None →
   parentIdById (nodeIdMapCollection s) !! nodeId = None →
   deleteContext nodeId h s
   = Returned None h (afterDelete s nodeId (root s) (parentIdById (nodeIdMapCollection s))
                        (childIdsById (nodeIdMapCollection s))))
  ∧ (∀ parentId parentNode before after,
       childIdsById (nodeIdMapCollection s) !! nodeId = None →
       parentIdById (nodeIdMapCollection s) !! nodeId = Some parentId →
       parentId ≠ 0 → parentId ≠ nodeId →
       contextNodeById (nodeIdMapCollection s) !! parentId = Some parentNode →
       childIdsById (nodeIdMapCollection s) !! parentId = Some (before ++ nodeId :: after) →
       nodeId ∉ before →
       deleteContext nodeId h s
       = Returned (Some parentNode) h
           (afterDelete s nodeId (root s) (parentIdById (nodeIdMapCollection s))
              (<[parentId := before ++ after]> (childIdsById (nodeIdMapCollection s)))))
  ∧ (∀ childIds,
       childIdsById (nodeIdMapCollection s) !! nodeId = Some childIds →
       length childIds ≠ 1%nat →
       deleteContext nodeId h s
       = Thrown (CommonError.InvariantError "childIds.length !== 0") h
           (with_leafNodeIds s (leavesWithout (leafNodeIds s) nodeId))).
Proof.
  intros Hn. split; [|split].
  - intros. by eapply deleteContext_leaf_root.
  - intros. by eapply deleteContext_leaf_child.
  - intros. by eapply deleteContext_wrong_child_count.
Qed.

Lemma deleteContext_by_children_witness :
  deleteContext 2 worldOpenChild.1 worldOpenChild.2
  = Returned (Some 1%positive) worldOpenChild.1
      (afterDelete worldOpenChild.2 2 (root worldOpenChild.2)
         (parentIdById (nodeIdMapCollection worldOpenChild.2))
         (<[1 := [] ++ []]> (childIdsById (nodeIdMapCollection worldOpenChild.2))))
  ∧ deleteContext 1 worldChildDeleted.1 worldChildDeleted.2
    = Thrown (CommonError.InvariantError "childIds.length !== 0") worldChildDeleted.1
        (with_leafNodeIds worldChildDeleted.2
           (leavesWithout (leafNodeIds worldChildDeleted.2) 1)).
Proof.
  split.
  - apply (deleteContext_by_children worldOpenChild.1 worldOpenChild.2 2 2%positive
             eq_refl);
      [reflexivity | reflexivity | done | done | reflexivity | reflexivity
      | apply not_elem_of_nil].
  - apply (deleteContext_by_children worldChildDeleted.1 worldChildDeleted.2 1 1%positive
             eq_refl) with (childIds := []); [reflexivity | done].
Defined.

(** *** Collapsing a context onto its single child *)

(** C3 (as stated, refuted): when the root context is deleted and its single
    child is already closed, the root handle still is the deleted context
    object, whose id is 1 and not the child's id 2; the id it carries resolves
    in neither map. *)
Lemma deleteContext_root_keeps_deleted_node :
  let '(h, s) := worldClosedChild in
  maybeNode (root s) = Some 1%positive
  ∧ childIdsById (nodeIdMapCollection s) !! 1 = Some [2]
  ∧ parentIdById (nodeIdMapCollection s) !! 1 = None
  ∧ contextNodeById (nodeIdMapCollection s) !! 2 = None
  ∧ is_Some (astNodeById (nodeIdMapCollection s) !! 2)
  ∧ match deleteContext 1 h s with
    | Returned _ h' s' =>
        maybeNode (root s') = Some 1%positive
        ∧ (id <$> nodes h' !! 1%positive) = Some 1
        ∧ astNodeById (nodeIdMapCollection s') !! 1 = None
        ∧ contextNodeById (nodeIdMapCollection s') !! 1 = None
    | _ => False
    end.
Proof. vm_compute. repeat split; eauto. Qed.

(** C3 (amended): let the root handle be a context registered under its own
    id (an id that is not also in [astNodeById]), with no parent and exactly
    one child (an id that resolves to a closed ast node or an open context).
    [deleteContext] on it returns nothing and unregisters the context.  If the
    child is still open, [root.maybeNode] becomes the child's context object.
    If the child is already closed, [root.maybeNode] is left as it was: it
    still is the deleted context object, whose id is the deleted node's and
    not the child's; that id is in neither map afterwards, so
    [NodeIdMap.expectXorNode] throws on it. *)
Theorem deleteContext_root_collapse h s nodeId node deleted childId :
  closed h s →
  maybeNode (root s) = Some node →
  contextNodeById (nodeIdMapCollection s) !! nodeId = Some node →
  nodes h !! node = Some deleted →
  id deleted = nodeId →
  astNodeById (nodeIdMapCollection s) !! nodeId = None →
  parentIdById (nodeIdMapCollection s) !! nodeId = None →
  childIdsById (nodeIdMapCollection s) !! nodeId = Some [childId] →
  is_Some (astNodeById (nodeIdMapCollection s) !! childId)
  ∨ is_Some (contextNodeById (nodeIdMapCollection s) !! childId) →
  ∃ h' s',
    deleteContext nodeId h s = Returned None h' s'
    ∧ contextNodeById (nodeIdMapCollection s')
      = delete nodeId (contextNodeById (nodeIdMapCollection s))
    ∧ match contextNodeById (nodeIdMapCollection s) !! childId with
      | Some childContext => maybeNode (root s') = Some childContext
      | None =>
          maybeNode (root s') = Some node
          ∧ (id <$> nodes h' !! node) = Some nodeId
          ∧ nodeId ≠ childId
          ∧ astNodeById (nodeIdMapCollection s') !! nodeId = None
          ∧ contextNodeById (nodeIdMapCollection s') !! nodeId = None
          ∧ ∃ e, NodeIdMap.expectXorNode (nodeIdMapCollection s') nodeId h' s'
                 = Thrown e h' s'
      end.
Proof.
  intros (Hnodes & Hasts & _) Hroot Hn Hdeleted Hid Hnotast Hp Hc Hchild.
  destruct s as [r [am cm pm chm] n leaves]. simpl in *.
  unfold_delete. simpl. rewrite Hn, Hc, Hp.
  destruct (indexOf leaves nodeId); simpl.
  all: destruct (cm !! childId) as [childContext|] eqn:Hcc; simpl.
  all: destruct (am !! childId) as [childAst|] eqn:Hca; simpl; rewrite ?Hcc; simpl.
  all: try (destruct (Hasts _ _ Hca) as [ast Hast]; rewrite Hdeleted, Hast; simpl;
            do 2 eexists; split; [reflexivity|]; simpl;
            rewrite ?Hdeleted, ?Hnotast, ?lookup_delete_eq; simpl;
            repeat split; try done; try congruence; by eauto).
  all: try (destruct (Hnodes _ _ Hcc) as [context Hcontext];
            rewrite Hdeleted, Hcontext; simpl; by eauto).
  all: destruct Hchild as [[? ?]|[? ?]]; done.
Qed.

Lemma deleteContext_root_collapse_witness :
  (∃ h' s',
     deleteContext 1 worldOpenChild.1 worldOpenChild.2 = Returned None h' s'
     ∧ contextNodeById (nodeIdMapCollection s')
       = delete 1 (contextNodeById (nodeIdMapCollection worldOpenChild.2))
     ∧ match contextNodeById (nodeIdMapCollection worldOpenChild.2) !! 2 with
       | Some childContext => maybeNode (root s') = Some childContext
       | None =>
           maybeNode (root s') = Some 1%positive
           ∧ (id <$> nodes h' !! 1%positive) = Some 1
           ∧ 1 ≠ 2
           ∧ astNodeById (nodeIdMapCollection s') !! 1 = None
           ∧ contextNodeById (nodeIdMapCollection s') !! 1 = None
           ∧ ∃ e, NodeIdMap.expectXorNode (nodeIdMapCollection s') 1 h' s'
                  = Thrown e h' s'
       end)
  ∧ (∃ h' s',
       deleteContext 1 worldClosedChild.1 worldClosedChild.2 = Returned None h' s'
       ∧ contextNodeById (nodeIdMapCollection s')
         = delete 1 (contextNodeById (nodeIdMapCollection worldClosedChild.2))
       ∧ match contextNodeById (nodeIdMapCollection worldClosedChild.2) !! 2 with
         | Some childContext => maybeNode (root s') = Some childContext
         | None =>
             maybeNode (root s') = Some 1%positive
             ∧ (id <$> nodes h' !! 1%positive) = Some 1
             ∧ 1 ≠ 2
             ∧ astNodeById (nodeIdMapCollection s') !! 1 = None
             ∧ contextNodeById (nodeIdMapCollection s') !! 1 = None
             ∧ ∃ e, NodeIdMap.expectXorNode (nodeIdMapCollection s') 1 h' s'
                    = Thrown e h' s'
         end).
Proof.
  split.
  - apply (deleteContext_root_collapse worldOpenChild.1 worldOpenChild.2 1 1%positive
             (mkNode 1 Ast.ParenthesizedExpression 0 None 1 None None) 2);
      try (vm_compute; reflexivity).
    + apply (bool_decide_unpack _). vm_compute. exact I.
    + right. vm_compute. eauto.
  - apply (deleteContext_root_collapse worldClosedChild.1 worldClosedChild.2 1 1%positive
             (mkNode 1 Ast.ParenthesizedExpression 0 None 1 None None) 2);
      try (vm_compute; reflexivity).
    + apply (bool_decide_unpack _). vm_compute. exact I.
    + left. vm_compute. eauto.
Defined.

(** C5: in a chain root→A→B, where A is a registered context with the single
    child B and the parent root (three different ids, B's non-zero as every
    allocated id is, B resolving to a closed or an open node, root registered
    and listing A), [deleteContext] on A returns the root context, puts B in A's
    place in the root's children with every sibling where it was, makes root the
    parent of B, gives B the [maybeAttributeIndex] A had, and drops A from
    [contextNodeById], [childIdsById] and [parentIdById]. *)
Theorem deleteContext_interior_collapse h s nodeId node deleted parentId parentNode childId
    before after :
  closed h s →
  contextNodeById (nodeIdMapCollection s) !! nodeId = Some node →
  nodes h !! node = Some deleted →
  parentIdById (nodeIdMapCollection s) !! nodeId = Some parentId →
  childIdsById (nodeIdMapCollection s) !! nodeId = Some [childId] →
  contextNodeById (nodeIdMapCollection s) !! parentId = Some parentNode →
  childIdsById (nodeIdMapCollection s) !! parentId = Some (before ++ nodeId :: after) →
  nodeId ∉ before →
  parentId ≠ nodeId → childId ≠ nodeId → childId ≠ 0 →
  is_Some (astNodeById (nodeIdMapCollection s) !! childId)
  ∨ is_Some (contextNodeById (nodeIdMapCollection s) !! childId) →
  ∃ h' s',
    deleteContext nodeId h s = Returned (Some parentNode) h' s'
    ∧ childIdsById (nodeIdMapCollection s') !! parentId = Some (before ++ childId :: after)
    ∧ parentIdById (nodeIdMapCollection s') !! childId = Some parentId
    ∧ attributeIndexOf h' s' childId = Some (maybeAttributeIndex deleted)
    ∧ contextNodeById (nodeIdMapCollection s') !! nodeId = None
    ∧ childIdsById (nodeIdMapCollection s') !! nodeId = None
    ∧ parentIdById (nodeIdMapCollection s') !! nodeId = None.
Proof.
  intros (Hnodes & Hasts & _) Hn Hdeleted Hp Hc Hpn Hs Hnotin Hpne Hcne Hc0 Hchild.
  destruct s as [r [am cm pm chm] n leaves]. simpl in *.
  unfold_delete. simpl. rewrite Hn, Hc, Hp.
  unfold truthy. rewrite (proj2 (Z.eqb_neq childId 0)) by done.
  unfold attributeIndexOf.
  destruct (indexOf leaves nodeId); simpl; rewrite Hs; simpl;
    rewrite (indexOf_middle _ _ _ Hnotin), replaceAt_middle; simpl.
  all: destruct (am !! childId) as [childAst|] eqn:Hca; simpl.
  all: try (destruct (Hasts _ _ Hca) as [ast Hast]; rewrite Hdeleted, Hast; simpl;
            rewrite (lookup_delete_ne cm) by done; rewrite Hpn; simpl;
            do 2 eexists; split; [reflexivity|]; simpl;
            rewrite Hca, !lookup_delete_eq, !lookup_delete_ne, !lookup_insert_eq by done;
            done).
  all: destruct (cm !! childId) as [childContext|] eqn:Hcc; simpl.
  all: try (destruct (Hnodes _ _ Hcc) as [context Hcontext];
            rewrite Hdeleted, Hcontext; simpl;
            rewrite (lookup_delete_ne cm) by done; rewrite Hpn; simpl;
            do 2 eexists; split; [reflexivity|]; simpl;
            rewrite Hca, !lookup_delete_eq, !lookup_delete_ne, !lookup_insert_eq by done;
            rewrite Hcc; simpl; rewrite lookup_insert_eq;
            done).
  all: destruct Hchild as [[? ?]|[? ?]]; done.
Qed.

Lemma deleteContext_interior_collapse_witness :
  ∃ h' s',
    deleteContext 3 worldThreeGenerations.1 worldThreeGenerations.2
      = Returned (Some 1%positive) h' s'
    ∧ childIdsById (nodeIdMapCollection s') !! 1 = Some ([2] ++ 4 :: [5])
    ∧ parentIdById (nodeIdMapCollection s') !! 4 = Some 1
    ∧ attributeIndexOf h' s' 4
      = Some (maybeAttributeIndex
                (mkNode 3 Ast.ParenthesizedExpression 1 None 1 None (Some 1)))
    ∧ contextNodeById (nodeIdMapCollection s') !! 3 = None
    ∧ childIdsById (nodeIdMapCollection s') !! 3 = None
    ∧ parentIdById (nodeIdMapCollection s') !! 3 = None.
Proof.
  apply (deleteContext_interior_collapse worldThreeGenerations.1 worldThreeGenerations.2
           3 3%positive (mkNode 3 Ast.ParenthesizedExpression 1 None 1 None (Some 1))
           1 1%positive 4 [2] [5]).
  - apply (bool_decide_unpack _). vm_compute. exact I.
  - reflexivity.
  - reflexivity.
  - reflexivity.
  - reflexivity.
  - reflexivity.
  - reflexivity.
  - apply (bool_decide_unpack _). vm_compute. exact I.
  - done.
  - done.
  - done.
  - left. vm_compute. eauto.
Defined.

(** ** What one operation does to the heap *)

Lemma fresh_lookup {V} (m : gmap positive V) : m !! fresh (dom m) = None.
Proof. apply not_elem_of_dom, is_fresh. Qed.

Ltac name_fresh_in m :=
  let f := fresh "f" in
  let Hf := fresh "Hf" in
  pose proof (fresh_lookup m) as Hf;
  set (f := fresh (dom m)) in *;
  clearbody f;
  try (apply lookup_insert_None in Hf as [Hf ?]).

Ltac name_fresh :=
  repeat match goal with
  | |- context [fresh (dom ?m)] => name_fresh_in m
  | H : context [fresh (dom ?m)] |- _ => name_fresh_in m
  end.

(** One case split of an unfolded operation: on a map lookup, on a position in
    a list, on a condition or on the shape of a children list. *)
Ltac step :=
  match goal with
  | H : ?x = _ |- context [match ?x with _ => _ end] => rewrite H
  | |- context [match ?x with Some _ => _ | None => _ end] =>
      lazymatch x with
      | _ !! _ => destruct x eqn:?
      | indexOf _ _ => destruct x eqn:?
      | _ => is_var x; destruct x
      end
  | |- context [if ?b then _ else _] =>
      lazymatch b with
      | bool_decide _ => case_bool_decide
      | _ => destruct b eqn:?
      end
  | |- context [match ?l with [] => _ | _ :: _ => _ end] => is_var l; destruct l
  end; simpl.

Ltac lookups :=
  repeat first
    [ rewrite lookup_insert
    | rewrite lookup_delete
    | match goal with
      | H : context [<[_ := _]> _ !! _] |- _ => rewrite lookup_insert in H
      | H : context [delete _ _ !! _] |- _ => rewrite lookup_delete in H
      end
    | case_decide; subst
    | case_bool_decide; subst ];
  simplify_eq.

Ltac finish_effect :=
  intros; simpl in *; name_fresh; lookups;
  try match goal with
  | |- ∃ n' : Node, _ =>
      eexists; split; [first [reflexivity | eassumption]|]; split; [simpl; lia|];
      first [ by left | right; left; set_solver | right; right; by eauto ]
  | |- asts _ !! _ = Some _ => assumption
  | |- _ ∨ _ => first [ by left | by right | right; by eauto 10 ]
  end.

Lemma startContext_effect h s nodeKind tokenIndexStart maybeTokenStart maybeParentNode :
  let op := OpStart nodeKind tokenIndexStart maybeTokenStart maybeParentNode in
  let w := after (runOp op h s) (h, s) in
  nodesEffect h s op w.1 ∧ astsEffect h s op w.1 ∧ registryEffect h s w.2.
Proof.
  unfold runOp, startContext. unfold_M. simpl.
  unfold nodesEffect, astsEffect, registryEffect, increment.
  repeat step; (split; [|split]); finish_effect.
Qed.

Lemma endContext_effect h s contextNode astNode :
  let op := OpEnd contextNode astNode in
  let w := after (runOp op h s) (h, s) in
  nodesEffect h s op w.1 ∧ astsEffect h s op w.1 ∧ registryEffect h s w.2.
Proof.
  unfold runOp, endContext. unfold_M. simpl.
  unfold nodesEffect, astsEffect, registryEffect, increment.
  repeat step; (split; [|split]); finish_effect.
Qed.

Lemma newAst_effect h s astNode :
  let op := OpNewAst astNode in
  let w := after (runOp op h s) (h, s) in
  nodesEffect h s op w.1 ∧ astsEffect h s op w.1 ∧ registryEffect h s w.2.
Proof.
  unfold runOp. unfold_M. simpl.
  unfold nodesEffect, astsEffect, registryEffect, increment.
  repeat step; (split; [|split]); finish_effect.
Qed.

Lemma deleteContext_effect h s nodeId :
  let op := OpDelete nodeId in
  let w := after (runOp op h s) (h, s) in
  nodesEffect h s op w.1 ∧ astsEffect h s op w.1 ∧ registryEffect h s w.2.
Proof.
  unfold runOp. unfold_delete. simpl.
  unfold nodesEffect, astsEffect, registryEffect, increment.
  repeat step; (split; [|split]); finish_effect.
Qed.

Lemma runOp_effect h s op :
  let w := after (runOp op h s) (h, s) in
  nodesEffect h s op w.1 ∧ astsEffect h s op w.1 ∧ registryEffect h s w.2.
Proof.
  destruct op.
  - apply startContext_effect.
  - apply endContext_effect.
  - apply deleteContext_effect.
  - apply newAst_effect.
Qed.

(** ** Ast nodes under the lifecycle operations *)

(** C4 (as stated, refuted): deleting an open context whose single child is
    already closed overwrites the [maybeAttributeIndex] of the child's ast
    node. *)
Lemma deleteContext_mutates_closed_child :
  let '(h, s) := worldClosedChild in
  astNodeById (nodeIdMapCollection s) !! 2 = Some 1%positive
  ∧ asts h !! 1%positive = Some (Ast.mkTNode 2 Ast.LiteralExpression true (Some 0))
  ∧ match deleteContext 1 h s with
    | Returned _ h' s' =>
        astNodeById (nodeIdMapCollection s') !! 2 = Some 1%positive
        ∧ asts h' !! 1%positive = Some (Ast.mkTNode 2 Ast.LiteralExpression true None)
    | _ => False
    end.
Proof. vm_compute. repeat split; reflexivity. Qed.

(** C4 (amended): [startContext] and [endContext] leave every existing ast
    node as it is.  [deleteContext] leaves every ast node as it is except the
    ast node of the deleted context's single child, when that child is closed:
    its [maybeAttributeIndex] is overwritten with the deleted context's, its
    other fields are kept. *)
Theorem ast_nodes_only_reindexed h s op r a :
  asts h !! r = Some a →
  let h' := (after (runOp op h s) (h, s)).1 in
  match op with
  | OpDelete nodeId =>
      asts h' !! r = Some a
      ∨ ∃ childId node deleted,
          childIdsById (nodeIdMapCollection s) !! nodeId = Some [childId]
          ∧ astNodeById (nodeIdMapCollection s) !! childId = Some r
          ∧ contextNodeById (nodeIdMapCollection s) !! nodeId = Some node
          ∧ nodes h !! node = Some deleted
          ∧ asts h' !! r
            = Some (Ast.mkTNode (Ast.id a) (Ast.kind a) (Ast.isLeaf a)
                                (maybeAttributeIndex deleted))
  | _ => asts h' !! r = Some a
  end.
Proof.
  intros Ha. destruct (runOp_effect h s op) as (_ & Hasts & _).
  specialize (Hasts r a Ha). by destruct op.
Qed.

Lemma ast_nodes_only_reindexed_witness :
  asts (after (runOp (OpDelete 1) worldClosedChild.1 worldClosedChild.2)
              (worldClosedChild.1, worldClosedChild.2)).1 !! 1%positive
  = Some (Ast.mkTNode 2 Ast.LiteralExpression true (Some 0))
  ∨ ∃ childId node deleted,
      childIdsById (nodeIdMapCollection worldClosedChild.2) !! 1 = Some [childId]
      ∧ astNodeById (nodeIdMapCollection worldClosedChild.2) !! childId = Some 1%positive
      ∧ contextNodeById (nodeIdMapCollection worldClosedChild.2) !! 1 = Some node
      ∧ nodes worldClosedChild.1 !! node = Some deleted
      ∧ asts (after (runOp (OpDelete 1) worldClosedChild.1 worldClosedChild.2)
                    (worldClosedChild.1, worldClosedChild.2)).1 !! 1%positive
        = Some (Ast.mkTNode 2 Ast.LiteralExpression true (maybeAttributeIndex deleted)).
Proof.
  apply (ast_nodes_only_reindexed worldClosedChild.1 worldClosedChild.2 (OpDelete 1)
           1%positive (Ast.mkTNode 2 Ast.LiteralExpression true (Some 0))).
  vm_compute. reflexivity.
Defined.

(** ** The attribute counter *)

Lemma countStartsBeneath_cons r op ops :
  Z.of_nat (countStartsBeneath r (op :: ops))
  = increment r op + Z.of_nat (countStartsBeneath r ops).
Proof.
  unfold countStartsBeneath, increment. rewrite filter_cons.
  destruct (startsBeneath r op); case_decide; simpl; try done; lia.
Qed.

(** C6: over any sequence of operations of the driver, the attribute counter
    of a context object never decreases: it ends as its initial value plus the
    number of contexts started with that object as parent; closing and deleting
    contexts (children included) do not change it. *)
Theorem attributeCounter_monotone ops h s r n :
  nodes h !! r = Some n →
  ∃ n',
    nodes (runOps ops (h, s)).1 !! r = Some n'
    ∧ attributeCounter n' = attributeCounter n + Z.of_nat (countStartsBeneath r ops)
    ∧ attributeCounter n ≤ attributeCounter n'.
Proof.
  revert h s n. induction ops as [|op ops IH]; intros h s n Hn.
  - exists n. simpl. split; [done|]. unfold countStartsBeneath. simpl. lia.
  - simpl. destruct (runOp_effect h s op) as (Hnodes & _ & _).
    destruct (Hnodes r n Hn) as (n1 & Hn1 & Hcount & _).
    destruct (after (runOp op h s) (h, s)) as [h1 s1]. simpl in *.
    destruct (IH h1 s1 n1 Hn1) as (n' & Hn' & Hcount' & Hle).
    exists n'. split; [done|]. rewrite countStartsBeneath_cons.
    unfold increment in *. destruct (startsBeneath r op); lia.
Qed.

Lemma attributeCounter_monotone_witness :
  ∃ n',
    nodes (runOps [OpStart Ast.Csv 3 None (Some 1%positive); OpDelete 5; OpDelete 3;
                   OpStart Ast.Csv 3 None (Some 1%positive)]
                  (worldThreeGenerations.1, worldThreeGenerations.2)).1 !! 1%positive
    = Some n'
    ∧ attributeCounter n'
      = attributeCounter (mkNode 1 Ast.ListExpression 0 None 3 None None)
        + Z.of_nat (countStartsBeneath 1%positive
                      [OpStart Ast.Csv 3 None (Some 1%positive); OpDelete 5; OpDelete 3;
                       OpStart Ast.Csv 3 None (Some 1%positive)])
    ∧ attributeCounter (mkNode 1 Ast.ListExpression 0 None 3 None None)
      ≤ attributeCounter n'.
Proof.
  apply (attributeCounter_monotone
           [OpStart Ast.Csv 3 None (Some 1%positive); OpDelete 5; OpDelete 3;
            OpStart Ast.Csv 3 None (Some 1%positive)]
           worldThreeGenerations.1 worldThreeGenerations.2 1%positive
           (mkNode 1 Ast.ListExpression 0 None 3 None None)).
  vm_compute. reflexivity.
Defined.

(** ** Deep copies *)














(** ** The type-name renderer *)

Section Renderer.
Import PqType TypeUtils.
Local Open Scope string_scope.

(** The expectations of the test-suite that the model of [nameOf] is checked
    against. *)
Lemma nameOf_test_suite :
  nameOf AnyInstance = "any"
  ∧ nameOf (Primitive NotApplicable true) = "nullable not applicable"
  ∧ nameOf (AnyUnion [NumberInstance; ListInstance]) = "number | list"
  ∧ nameOf (AnyUnion [DefinedRecord false [("foo", NumberInstance)] false;
                      DefinedList false [TextInstance];
                      DefinedTable false [("bar", TextInstance)] true])
    = "[foo: number] | {text} | table [bar: text, ...]"
  ∧ nameOf (DefinedFunction false [] AnyInstance) = "() => any"
  ∧ nameOf (DefinedFunction false [] NullableAnyInstance) = "() => nullable any"
  ∧ nameOf (DefinedList true []) = "nullable {}"
  ∧ nameOf (DefinedList false [NumberInstance; NullableTextInstance])
    = "{number, nullable text}"
  ∧ nameOf (DefinedListType true []) = "nullable type {}"
  ∧ nameOf (DefinedListType false [NumberInstance; NullableTextInstance])
    = "type {number, nullable text}"
  ∧ nameOf (DefinedRecord false [] false) = "[]"
  ∧ nameOf (DefinedRecord false [] true) = "[...]"
  ∧ nameOf (DefinedRecord false [("foo", NumberInstance); ("bar", NullableTextInstance)] true)
    = "[foo: number, bar: nullable text, ...]"
  ∧ nameOf (DefinedTable false [] true) = "table [...]"
  ∧ nameOf (DefinedTable false [("foo", NumberInstance); ("bar", NullableTextInstance)] false)
    = "table [foo: number, bar: nullable text]"
  ∧ nameOf (FunctionType false [] AnyInstance) = "type function () any"
  ∧ nameOf (ListType false TextInstance) = "type {text}"
  ∧ nameOf (PrimaryPrimitiveType false TextInstance) = "type text"
  ∧ nameOf (RecordType false [] true) = "type [...]"
  ∧ nameOf (RecordType false [("foo", NumberInstance)] false) = "type [foo: number]"
  ∧ nameOf (TableType false [("foo", NumberInstance); ("bar", NullableTextInstance)] true)
    = "type table [foo: number, bar: nullable text, ...]"
  ∧ nameOf (TableTypePrimaryExpression false TextInstance) = "type table text".
Proof. repeat split; reflexivity. Qed.

(** C9: the DefinedFunction with the four parameter flavours and return type
    [any] renders as in scenario S6; in every parameter that is both optional
    and nullable the word [optional] comes before [nullable]; a DefinedFunction
    renders as its parenthesised parameters, an arrow and its return type; a
    FunctionType renders as [type function], its parenthesised parameters and
    its return type, separated by spaces, without an arrow. *)
Theorem nameOf_functions :
  nameOf (DefinedFunction false allParameterFlavors AnyInstance)
  = "(param1: number, param2: nullable number, param3: optional number, param4: optional nullable number) => any"
  ∧ nameOf (FunctionType false allParameterFlavors AnyInstance)
    = "type function (param1: number, param2: nullable number, param3: optional number, param4: optional nullable number) any"
  ∧ (∀ name type,
       nameOfFunctionParameter (mkFunctionParameter true true (Some type) name)
       = name +:+ ": optional nullable " +:+ nameOfTypeKind type)
  ∧ (∀ parameters returnType,
       nameOf (DefinedFunction false parameters returnType)
       = ("(" +:+ String.concat ", " (map nameOfFunctionParameter parameters) +:+ ")")
         +:+ " => " +:+ nameOf returnType)
  ∧ (∀ parameters returnType,
       nameOf (FunctionType false parameters returnType)
       = "type function "
         +:+ ("(" +:+ String.concat ", " (map nameOfFunctionParameter parameters) +:+ ")")
         +:+ " " +:+ nameOf returnType).
Proof. repeat split; reflexivity. Qed.

End Renderer.

(* ===================================================================== *)
(** * Further properties of context.ts *)
(* ===================================================================== *)

(** ** endContext *)

Lemma endContext_registered h s contextNode astNode context ast :
  nodes h !! contextNode = Some context →
  asts h !! astNode = Some ast →
  maybeAstNode context = None →
  id context = Ast.id ast →
  is_Some (contextNodeById (nodeIdMapCollection s) !! id context) →
  endContext contextNode astNode h s
  = Returned (parentIdById (nodeIdMapCollection s) !! id context
              ≫= λ parentId, contextNodeById (nodeIdMapCollection s) !! parentId)
      (mkHeap (<[contextNode := with_maybeAstNode context (Some astNode)]> (nodes h))
              (asts h))
      (mkState (root s)
         (mkCollection (<[id context := astNode]> (astNodeById (nodeIdMapCollection s)))
                       (delete (id context) (contextNodeById (nodeIdMapCollection s)))
                       (parentIdById (nodeIdMapCollection s))
                       (childIdsById (nodeIdMapCollection s)))
         (idCounter s)
         (if Ast.isLeaf ast then leafNodeIds s ++ [id context] else leafNodeIds s)).
Proof.
  intros Hc Ha Hopen Hid Hreg. unfold endContext. unfold_M.
  rewrite Hc, Ha. simpl.
  rewrite bool_decide_eq_false_2 by (rewrite Hopen; naive_solver).
  rewrite bool_decide_eq_false_2 by naive_solver.
  destruct s as [r [am cm pm chm] n leaves]. simpl in *.
  destruct (Ast.isLeaf ast); simpl;
    rewrite bool_decide_eq_true_2 by done; simpl;
    rewrite Hid; destruct (pm !! Ast.id ast); reflexivity.
Qed.

(** X1: closing a registered open context with an ast node of the same id
    moves the id from [contextNodeById] to [astNodeById], keeps every other
    entry of both maps, appends the id to the leaf list exactly when the ast
    node is a leaf, and returns the context registered under the parent id
    (nothing when there is no parent entry or the parent is not registered). *)
Theorem endContext_moves_to_ast_realm h s contextNode astNode context ast :
  nodes h !! contextNode = Some context →
  asts h !! astNode = Some ast →
  maybeAstNode context = None →
  id context = Ast.id ast →
  is_Some (contextNodeById (nodeIdMapCollection s) !! id context) →
  ∃ h' s',
    endContext contextNode astNode h s
    = Returned (parentIdById (nodeIdMapCollection s) !! id context
                ≫= λ parentId, contextNodeById (nodeIdMapCollection s) !! parentId) h' s'
    ∧ astNodeById (nodeIdMapCollection s') !! id context = Some astNode
    ∧ contextNodeById (nodeIdMapCollection s') !! id context = None
    ∧ (∀ i, i ≠ id context →
         astNodeById (nodeIdMapCollection s') !! i = astNodeById (nodeIdMapCollection s) !! i
         ∧ contextNodeById (nodeIdMapCollection s') !! i
           = contextNodeById (nodeIdMapCollection s) !! i)
    ∧ (maybeAstNode <$> nodes h' !! contextNode) = Some (Some astNode)
    ∧ leafNodeIds s'
      = (if Ast.isLeaf ast then leafNodeIds s ++ [id context] else leafNodeIds s)
    ∧ parentIdById (nodeIdMapCollection s') = parentIdById (nodeIdMapCollection s)
    ∧ childIdsById (nodeIdMapCollection s') = childIdsById (nodeIdMapCollection s)
    ∧ idCounter s' = idCounter s.
Proof.
  intros Hc Ha Hopen Hid Hreg.
  rewrite (endContext_registered _ _ _ _ _ _ Hc Ha Hopen Hid Hreg).
  do 2 eexists. split; [reflexivity|]. simpl.
  rewrite !lookup_insert_eq, lookup_delete_eq. repeat split; try done.
  - by rewrite lookup_insert_ne.
  - by rewrite lookup_delete_ne.
Qed.

Lemma endContext_moves_to_ast_realm_witness :
  ∃ h' s',
    endContext 3%positive 3%positive worldWrapperAst.1 worldWrapperAst.2
    = Returned (parentIdById (nodeIdMapCollection worldWrapperAst.2)
                  !! id (mkNode 3 Ast.ParenthesizedExpression 1 None 1 None (Some 1))
                ≫= λ parentId,
                    contextNodeById (nodeIdMapCollection worldWrapperAst.2) !! parentId)
        h' s'
    ∧ astNodeById (nodeIdMapCollection s')
        !! id (mkNode 3 Ast.ParenthesizedExpression 1 None 1 None (Some 1)) = Some 3%positive
    ∧ contextNodeById (nodeIdMapCollection s')
        !! id (mkNode 3 Ast.ParenthesizedExpression 1 None 1 None (Some 1)) = None
    ∧ (∀ i, i ≠ id (mkNode 3 Ast.ParenthesizedExpression 1 None 1 None (Some 1)) →
         astNodeById (nodeIdMapCollection s') !! i
         = astNodeById (nodeIdMapCollection worldWrapperAst.2) !! i
         ∧ contextNodeById (nodeIdMapCollection s') !! i
           = contextNodeById (nodeIdMapCollection worldWrapperAst.2) !! i)
    ∧ (maybeAstNode <$> nodes h' !! 3%positive) = Some (Some 3%positive)
    ∧ leafNodeIds s'
      = (if Ast.isLeaf (Ast.mkTNode 3 Ast.ParenthesizedExpression false (Some 1))
         then leafNodeIds worldWrapperAst.2
              ++ [id (mkNode 3 Ast.ParenthesizedExpression 1 None 1 None (Some 1))]
         else leafNodeIds worldWrapperAst.2)
    ∧ parentIdById (nodeIdMapCollection s')
      = parentIdById (nodeIdMapCollection worldWrapperAst.2)
    ∧ childIdsById (nodeIdMapCollection s')
      = childIdsById (nodeIdMapCollection worldWrapperAst.2)
    ∧ idCounter s' = idCounter worldWrapperAst.2.
Proof.
  apply (endContext_moves_to_ast_realm worldWrapperAst.1 worldWrapperAst.2 3%positive
           3%positive (mkNode 3 Ast.ParenthesizedExpression 1 None 1 None (Some 1))
           (Ast.mkTNode 3 Ast.ParenthesizedExpression false (Some 1)));
    try (vm_compute; reflexivity).
  vm_compute. eauto.
Defined.

(** X2: a context that was closed cannot be closed again: the second
    [endContext] on the same context object throws "context was already ended"
    and changes neither the heap nor the session. *)
Theorem endContext_twice_throws h s contextNode astNode astNode' context ast ast' :
  nodes h !! contextNode = Some context →
  asts h !! astNode = Some ast →
  asts h !! astNode' = Some ast' →
  maybeAstNode context = None →
  id context = Ast.id ast →
  is_Some (contextNodeById (nodeIdMapCollection s) !! id context) →
  ∃ parent h' s',
    endContext contextNode astNode h s = Returned parent h' s'
    ∧ endContext contextNode astNode' h' s'
      = Thrown (CommonError.InvariantError "context was already ended") h' s'.
Proof.
  intros Hc Ha Ha' Hopen Hid Hreg.
  rewrite (endContext_registered _ _ _ _ _ _ Hc Ha Hopen Hid Hreg).
  do 3 eexists. split; [reflexivity|].
  unfold endContext. unfold_M. simpl.
  rewrite lookup_insert_eq. simpl. rewrite Ha'. reflexivity.
Qed.

(** X3: [endContext] with an ast node whose id differs from the context's
    throws "contextNode and astNode have different nodeIds" before it changes
    anything. *)
Theorem endContext_id_mismatch h s contextNode astNode context ast :
  nodes h !! contextNode = Some context →
  asts h !! astNode = Some ast →
  maybeAstNode context = None →
  id context ≠ Ast.id ast →
  endContext contextNode astNode h s
  = Thrown (CommonError.InvariantError "contextNode and astNode have different nodeIds")
      h s.
Proof.
  intros Hc Ha Hopen Hid. unfold endContext. unfold_M.
  rewrite Hc, Ha. simpl.
  rewrite bool_decide_eq_false_2 by (rewrite Hopen; naive_solver).
  by rewrite bool_decide_eq_true_2.
Qed.

(** ** deleteContext *)

Lemma deleteContext_missing h s nodeId :
  contextNodeById (nodeIdMapCollection s) !! nodeId = None →
  deleteContext nodeId h s = Thrown (CommonError.InvariantError "nodeId not in state.") h s.
Proof. intros Hn. unfold_delete. by rewrite Hn. Qed.

(** X4: [deleteContext] on an id that is not registered in [contextNodeById]
    (never allocated, already deleted, or already closed) throws "nodeId not in
    state." before it changes anything. *)
Theorem deleteContext_unregistered h s nodeId :
  contextNodeById (nodeIdMapCollection s) !! nodeId = None →
  deleteContext nodeId h s = Thrown (CommonError.InvariantError "nodeId not in state.") h s.
Proof. apply deleteContext_missing. Qed.

Lemma deleteContext_returned_unregisters h s nodeId :
  match deleteContext nodeId h s with
  | Returned _ _ s' => contextNodeById (nodeIdMapCollection s') !! nodeId = None
  | _ => True
  end.
Proof.
  unfold_delete. simpl. repeat step; simpl; try done; by rewrite lookup_delete_eq.
Qed.


(** X5: a context cannot be deleted twice: after a [deleteContext] that
    returned, [deleteContext] on the same id throws "nodeId not in state." and
    changes nothing. *)
Theorem deleteContext_twice_throws h s nodeId parent h' s' :
  deleteContext nodeId h s = Returned parent h' s' →
  deleteContext nodeId h' s'
  = Thrown (CommonError.InvariantError "nodeId not in state.") h' s'.
Proof.
  intros Hdel. apply deleteContext_missing.
  pose proof (deleteContext_returned_unregisters h s nodeId) as H.
  by rewrite Hdel in H.
Qed.

(** X6: a closed context cannot be deleted: after an [endContext] that
    returned, [deleteContext] on the id of the context throws "nodeId not in
    state." and changes nothing. *)
Theorem deleteContext_after_end_throws h s contextNode astNode context parent h' s' :
  nodes h !! contextNode = Some context →
  endContext contextNode astNode h s = Returned parent h' s' →
  deleteContext (id context) h' s'
  = Thrown (CommonError.InvariantError "nodeId not in state.") h' s'.
Proof.
  intros Hc Hend. apply deleteContext_missing. revert Hend.
  unfold endContext. unfold_M. rewrite Hc. simpl.
  repeat step; intros; simplify_eq; simpl; by rewrite lookup_delete_eq.
Qed.

(** Runs an unfolded operation forward: resolves the lookups the hypotheses
    decide. *)
Ltac run_lookups :=
  repeat (simpl;
          first [ rewrite lookup_insert_eq
                | rewrite lookup_insert_ne by done
                | rewrite lookup_delete_eq
                | rewrite lookup_delete_ne by done
                | rewrite decide_True by done
                | rewrite decide_False by done
                | match goal with
                  | H : ?x = _ |- context [match ?x with _ => _ end] => rewrite H
                  | |- context [truthy ?a] =>
                      unfold truthy; rewrite (proj2 (Z.eqb_neq a 0)) by done
                  end ]);
  simpl.

Lemma indexOf_absent (l : list Z) (x : Z) : x ∉ l → indexOf l x = None.
Proof.
  induction l as [|y l IH]; intros Hnotin; [done|]. simpl.
  apply not_elem_of_cons in Hnotin as [Hne Hnotin].
  rewrite decide_False by done. by rewrite IH.
Qed.

(** X7: deleting a childless context whose parent's children list does not
    hold it throws "childId isn't a child of parentId"; by then the id has been
    taken out of the leaf list, and nothing else has changed. *)
Theorem deleteContext_not_a_child h s nodeId node parentId siblings :
  contextNodeById (nodeIdMapCollection s) !! nodeId = Some node →
  childIdsById (nodeIdMapCollection s) !! nodeId = None →
  parentIdById (nodeIdMapCollection s) !! nodeId = Some parentId →
  parentId ≠ 0 →
  childIdsById (nodeIdMapCollection s) !! parentId = Some siblings →
  nodeId ∉ siblings →
  deleteContext nodeId h s
  = Thrown (CommonError.InvariantError "childId isn't a child of parentId") h
      (with_leafNodeIds s (leavesWithout (leafNodeIds s) nodeId)).
Proof.
  intros Hn Hc Hp H0 Hs Hnotin. destruct s as [r [am cm pm chm] n leaves]. simpl in *.
  unfold_delete. simpl. rewrite Hn, Hc, Hp.
  unfold truthy. rewrite (proj2 (Z.eqb_neq parentId 0)) by done. simpl.
  unfold leavesWithout, with_leafNodeIds. simpl.
  destruct (indexOf leaves nodeId); simpl; rewrite Hs; simpl;
    rewrite (indexOf_absent _ _ Hnotin); reflexivity.
Qed.

(** ** startContext followed by deleteContext *)

(** X8: starting a context without a parent and deleting it again gives back
    the four maps, the leaf list and the root of the session, provided the id
    [idCounter + 1] was unused; only the id counter keeps the increment, so the
    id is not handed out again. *)
Theorem start_delete_round_trip h s nodeKind tokenIndexStart maybeTokenStart :
  contextNodeById (nodeIdMapCollection s) !! (idCounter s + 1) = None →
  parentIdById (nodeIdMapCollection s) !! (idCounter s + 1) = None →
  childIdsById (nodeIdMapCollection s) !! (idCounter s + 1) = None →
  idCounter s + 1 ∉ leafNodeIds s →
  ∃ node h1 s1 h2 s2,
    startContext nodeKind tokenIndexStart maybeTokenStart None h s = Returned node h1 s1
    ∧ deleteContext (idCounter s + 1) h1 s1 = Returned None h2 s2
    ∧ nodeIdMapCollection s2 = nodeIdMapCollection s
    ∧ leafNodeIds s2 = leafNodeIds s
    ∧ root s2 = root s
    ∧ idCounter s2 = idCounter s + 1.
Proof.
  intros Hn Hp Hc Hleaf. destruct s as [r [am cm pm chm] n leaves]. simpl in *.
  unfold startContext. unfold_M. simpl.
  do 5 eexists. split; [reflexivity|].
  unfold_delete. simpl. rewrite lookup_insert_eq, (indexOf_absent _ _ Hleaf), Hc, Hp. simpl.
  split; [reflexivity|]. simpl.
  rewrite delete_insert_eq, !delete_id by done. done.
Qed.

(** X9: starting a context under a registered parent and deleting it again
    returns the parent and gives back [contextNodeById], [astNodeById],
    [parentIdById] and the leaf list, provided the id [idCounter + 1] was
    unused; the parent's children are as before when it had a list, and the
    empty list when it had none; the parent's attribute counter and the id
    counter keep their increment. *)
Theorem start_child_delete_round_trip h s nodeKind tokenIndexStart maybeTokenStart
    parentNode parent :
  nodes h !! parentNode = Some parent →
  contextNodeById (nodeIdMapCollection s) !! id parent = Some parentNode →
  id parent ≠ 0 →
  contextNodeById (nodeIdMapCollection s) !! (idCounter s + 1) = None →
  parentIdById (nodeIdMapCollection s) !! (idCounter s + 1) = None →
  childIdsById (nodeIdMapCollection s) !! (idCounter s + 1) = None →
  idCounter s + 1 ∉ leafNodeIds s →
  idCounter s + 1 ∉ default [] (childIdsById (nodeIdMapCollection s) !! id parent) →
  ∃ node h1 s1 h2 s2,
    startContext nodeKind tokenIndexStart maybeTokenStart (Some parentNode) h s
      = Returned node h1 s1
    ∧ deleteContext (idCounter s + 1) h1 s1 = Returned (Some parentNode) h2 s2
    ∧ contextNodeById (nodeIdMapCollection s2) = contextNodeById (nodeIdMapCollection s)
    ∧ astNodeById (nodeIdMapCollection s2) = astNodeById (nodeIdMapCollection s)
    ∧ parentIdById (nodeIdMapCollection s2) = parentIdById (nodeIdMapCollection s)
    ∧ childIdsById (nodeIdMapCollection s2)
      = <[id parent := default [] (childIdsById (nodeIdMapCollection s) !! id parent)]>
          (childIdsById (nodeIdMapCollection s))
    ∧ leafNodeIds s2 = leafNodeIds s
    ∧ idCounter s2 = idCounter s + 1
    ∧ nodes h2 !! parentNode
      = Some (with_attributeCounter parent (attributeCounter parent + 1)).
Proof.
  intros Hparent Hreg H0 Hn Hp Hc Hleaf Hchild.
  destruct s as [r [am cm pm chm] n leaves]. simpl in *.
  assert (Hne : id parent ≠ n + 1) by (intros Heq; rewrite Heq in Hreg; congruence).
  unfold startContext. unfold_M. rewrite Hparent. simpl.
  destruct (chm !! id parent) as [existing|] eqn:Hexisting; simpl in *.
  all: do 5 eexists; (split; [reflexivity|]).
  all: pose proof (indexOf_absent _ _ Hleaf) as Hindex.
  1: pose proof (indexOf_middle existing [] (n + 1) Hchild) as Hslot.
  2: assert (Hslot : indexOf [n + 1] (n + 1) = Some 0%nat)
       by (simpl; by rewrite decide_True).
  all: unfold_delete; run_lookups.
  1: rewrite removeAt_middle, app_nil_r.
  all: (split; [reflexivity|]); simpl.
  all: rewrite !delete_insert_eq by done; rewrite insert_insert_eq.
  all: rewrite (delete_id (<[id parent := _]> chm)) by (by rewrite lookup_insert_ne).
  all: repeat split; try done; try (by apply delete_id).
  all: name_fresh; rewrite lookup_insert_ne by done; by rewrite lookup_insert_eq.
Qed.

(** ** Invariants the operations keep *)

Lemma runOp_idsAllocated h s op :
  idsAllocated s → idsAllocated (after (runOp op h s) (h, s)).2.
Proof.
  intros (Hcounter & Hcontexts & Hasts & Hdisjoint).
  destruct op; unfold runOp, startContext, endContext; unfold_delete; simpl.
  all: repeat step.
  all: unfold idsAllocated; simpl; (split; [lia|]); (split; [|split]).
  all: try done.
  all: intros i r Hi; simpl in *; lookups.
  all: repeat match goal with H : is_Some _ |- _ => destruct H as [? ?] end.
  all: try match goal with
       | |- _ !! _ = None =>
           first [ by eapply Hdisjoint
                 | apply eq_None_not_Some; intros [? Hsome];
                   pose proof (Hasts _ _ Hsome) ]
       end.
  all: repeat match goal with
       | H : contextNodeById _ !! _ = Some _ |- _ =>
           pose proof (Hcontexts _ _ H); pose proof (Hdisjoint _ _ H); revert H
       | H : astNodeById _ !! _ = Some _ |- _ =>
           pose proof (Hasts _ _ H); revert H
       end.
  all: intros; simpl in *; try lia; try congruence.
Qed.


(** X10: over any sequence of operations, a session in which every registered
    id lies between 1 and the id counter and no id is registered both as an
    open context and as a closed ast node stays so; hence the id the next
    [startContext] allocates is registered in neither realm. *)
Theorem idsAllocated_invariant ops h s :
  idsAllocated s →
  idsAllocated (runOps ops (h, s)).2
  ∧ contextNodeById (nodeIdMapCollection (runOps ops (h, s)).2)
      !! (idCounter (runOps ops (h, s)).2 + 1) = None
  ∧ astNodeById (nodeIdMapCollection (runOps ops (h, s)).2)
      !! (idCounter (runOps ops (h, s)).2 + 1) = None.
Proof.
  intros Hinv.
  assert (Hafter : idsAllocated (runOps ops (h, s)).2).
  { revert h s Hinv. induction ops as [|op ops IH]; intros h s Hinv; [done|].
    simpl. pose proof (runOp_idsAllocated h s op Hinv) as Hstep.
    destruct (after (runOp op h s) (h, s)) as [h' s']. by apply IH. }
  split; [done|]. destruct Hafter as (_ & Hcontexts & Hasts & _).
  split; apply eq_None_not_Some; intros [r Hr].
  - pose proof (Hcontexts _ _ Hr) as Hbound. simpl in Hbound. lia.
  - pose proof (Hasts _ _ Hr) as Hbound. simpl in Hbound. lia.
Qed.


Lemma runOp_registeredUnderOwnId h s op :
  registeredUnderOwnId h s →
  registeredUnderOwnId (after (runOp op h s) (h, s)).1 (after (runOp op h s) (h, s)).2.
Proof.
  intros (Hcontexts & Hasts).
  destruct op; unfold runOp, startContext, endContext; unfold_delete; simpl.
  all: repeat step.
  all: unfold registeredUnderOwnId; simpl; split.
  all: try done.
  all: intros i r Hi; simpl in *; lookups.
  all: repeat match goal with
       | H : contextNodeById _ !! ?i = Some ?r |- _ =>
           let Hinv := fresh "Hinv" in
           pose proof (Hcontexts i r H) as Hinv; simpl in Hinv;
           destruct (nodes h !! r) eqn:?; [destruct Hinv|done]; revert H
       | H : astNodeById _ !! ?i = Some ?r |- _ =>
           let Hinv := fresh "Hinv" in
           pose proof (Hasts i r H) as Hinv; simpl in Hinv;
           destruct (asts h !! r) eqn:?; [|done]; revert H
       end.
  all: intros; simpl in *; name_fresh; lookups.
  all: repeat match goal with
       | H : ?x = _ |- context [match ?x with _ => _ end] => rewrite H
       end.
  all: simpl; try done.
Qed.

(** X12: over any sequence of operations, a world in which every registered
    context is an open object carrying the id it is registered under, and every
    registered ast node an object carrying the id it is registered under, stays
    so: no operation leaves a closed context, or a record of another id, in
    either map. *)
Theorem registeredUnderOwnId_invariant ops h s :
  registeredUnderOwnId h s →
  registeredUnderOwnId (runOps ops (h, s)).1 (runOps ops (h, s)).2.
Proof.
  revert h s. induction ops as [|op ops IH]; intros h s Hinv; [done|].
  simpl. pose proof (runOp_registeredUnderOwnId h s op Hinv) as Hstep.
  destruct (after (runOp op h s) (h, s)) as [h' s']. by apply IH.
Qed.

(** ** Root collapse and the parent map *)

Lemma deleteContext_root_collapse_state h s nodeId node childId :
  closed h s →
  contextNodeById (nodeIdMapCollection s) !! nodeId = Some node →
  parentIdById (nodeIdMapCollection s) !! nodeId = None →
  childIdsById (nodeIdMapCollection s) !! nodeId = Some [childId] →
  parentIdById (nodeIdMapCollection s) !! childId = Some nodeId →
  is_Some (astNodeById (nodeIdMapCollection s) !! childId)
  ∨ is_Some (contextNodeById (nodeIdMapCollection s) !! childId) →
  ∃ h' s',
    deleteContext nodeId h s = Returned None h' s'
    ∧ parentIdById (nodeIdMapCollection s') !! childId = Some nodeId
    ∧ contextNodeById (nodeIdMapCollection s') !! nodeId = None
    ∧ childIdsById (nodeIdMapCollection s') !! nodeId = None
    ∧ astNodeById (nodeIdMapCollection s') = astNodeById (nodeIdMapCollection s)
    ∧ (∀ i, i ≠ nodeId →
         contextNodeById (nodeIdMapCollection s') !! i
         = contextNodeById (nodeIdMapCollection s) !! i)
    ∧ maybeNode (root s')
      = match contextNodeById (nodeIdMapCollection s) !! childId with
        | Some childContext => Some childContext
        | None => maybeNode (root s)
        end.
Proof.
  intros (Hnodes & Hasts & _) Hn Hp Hc Hpc Hchild.
  assert (Hne : nodeId ≠ childId) by (intros ->; congruence).
  destruct (Hnodes _ _ Hn) as [deleted Hdeleted].
  destruct s as [r [am cm pm chm] n leaves]. simpl in *.
  unfold_delete. simpl. rewrite Hn, Hc, Hp.
  destruct (indexOf leaves nodeId); simpl.
  all: destruct (cm !! childId) as [childContext|] eqn:Hcc; simpl.
  all: destruct (am !! childId) as [childAst|] eqn:Hca; simpl; rewrite ?Hcc; simpl.
  all: try (destruct (Hasts _ _ Hca) as [ast Hast]; rewrite Hdeleted, Hast; simpl;
            do 2 eexists; split; [reflexivity|]; simpl;
            rewrite !lookup_delete_eq, lookup_delete_ne by done;
            repeat split; try done; intros; by rewrite lookup_delete_ne).
  all: try (destruct (Hnodes _ _ Hcc) as [context Hcontext];
            rewrite Hdeleted, Hcontext; simpl;
            do 2 eexists; split; [reflexivity|]; simpl;
            rewrite !lookup_delete_eq, lookup_delete_ne by done;
            repeat split; try done; intros; by rewrite lookup_delete_ne).
  all: destruct Hchild as [[? ?]|[? ?]]; done.
Qed.

(** X13: when a parentless context with a single child is deleted, the child's
    entry in [parentIdById] is not updated: it still names the deleted id, which
    by then is registered in neither [contextNodeById] nor [childIdsById]. *)
Theorem deleteContext_root_collapse_keeps_parent_entry h s nodeId node childId :
  closed h s →
  contextNodeById (nodeIdMapCollection s) !! nodeId = Some node →
  parentIdById (nodeIdMapCollection s) !! nodeId = None →
  childIdsById (nodeIdMapCollection s) !! nodeId = Some [childId] →
  parentIdById (nodeIdMapCollection s) !! childId = Some nodeId →
  is_Some (astNodeById (nodeIdMapCollection s) !! childId)
  ∨ is_Some (contextNodeById (nodeIdMapCollection s) !! childId) →
  ∃ h' s',
    deleteContext nodeId h s = Returned None h' s'
    ∧ parentIdById (nodeIdMapCollection s') !! childId = Some nodeId
    ∧ contextNodeById (nodeIdMapCollection s') !! nodeId = None
    ∧ childIdsById (nodeIdMapCollection s') !! nodeId = None.
Proof.
  intros Hclosed Hn Hp Hc Hpc Hchild.
  destruct (deleteContext_root_collapse_state h s nodeId node childId
              Hclosed Hn Hp Hc Hpc Hchild) as (h' & s' & Hdel & ? & ? & ? & _).
  by exists h', s'.
Qed.

Lemma deleteContext_orphan_throws h s nodeId node parentId :
  contextNodeById (nodeIdMapCollection s) !! nodeId = Some node →
  parentIdById (nodeIdMapCollection s) !! nodeId = Some parentId →
  parentId ≠ 0 →
  childIdsById (nodeIdMapCollection s) !! parentId = None →
  ∃ e h' s', deleteContext nodeId h s = Thrown e h' s'.
Proof.
  intros Hn Hp H0 Hc. destruct s as [r [am cm pm chm] n leaves]. simpl in *.
  unfold_delete. simpl. rewrite Hn, Hp.
  unfold truthy. rewrite (proj2 (Z.eqb_neq parentId 0)) by done.
  destruct (indexOf leaves nodeId); simpl.
  all: destruct (chm !! nodeId) as [[|childId [|? ?]]|]; simpl; rewrite ?Hc; simpl; eauto.
Qed.

(** X14: after such a root collapse the promoted child cannot be deleted any
    more: its parent entry names the deleted id, whose children list is gone,
    so [deleteContext] on the child throws (with [NodeIdMap.expectChildIds]
    failing on the missing list, as its name and the spec say). *)
Theorem deleteContext_after_root_collapse_throws h s nodeId node childId childContext :
  closed h s →
  contextNodeById (nodeIdMapCollection s) !! nodeId = Some node →
  parentIdById (nodeIdMapCollection s) !! nodeId = None →
  childIdsById (nodeIdMapCollection s) !! nodeId = Some [childId] →
  parentIdById (nodeIdMapCollection s) !! childId = Some nodeId →
  contextNodeById (nodeIdMapCollection s) !! childId = Some childContext →
  nodeId ≠ 0 →
  ∃ h' s' e h'' s'',
    deleteContext nodeId h s = Returned None h' s'
    ∧ maybeNode (root s') = Some childContext
    ∧ deleteContext childId h' s' = Thrown e h'' s''.
Proof.
  intros Hclosed Hn Hp Hc Hpc Hcc H0.
  assert (Hne : childId ≠ nodeId) by (intros ->; congruence).
  destruct (deleteContext_root_collapse_state h s nodeId node childId
              Hclosed Hn Hp Hc Hpc)
    as (h2 & s2 & Hdel & Hpc' & _ & Hc' & _ & Hctx & Hroot); [right; eauto|].
  rewrite Hcc in Hroot.
  destruct (deleteContext_orphan_throws h2 s2 childId childContext nodeId)
    as (e & h'' & s'' & Hthrow); try done.
  { by rewrite Hctx. }
  by exists h2, s2, e, h'', s''.
Qed.

(** ** What a deep copy shows *)





(** ** Parent-child symmetry *)

Lemma indexOf_split (l : list Z) (x : Z) (i : nat) :
  indexOf l x = Some i →
  ∃ before after, l = before ++ x :: after ∧ length before = i ∧ x ∉ before.
Proof.
  revert i. induction l as [|y l IH]; intros i Hi; [done|]. simpl in Hi.
  case_decide; simplify_eq.
  - exists [], l. split; [done|]. split; [done|]. apply not_elem_of_nil.
  - destruct (indexOf l x) as [j|] eqn:Hj; simplify_eq. simpl in Hi. simplify_eq.
    destruct (IH j eq_refl) as (before & after & -> & <- & Hnotin).
    exists (y :: before), after. split; [done|]. split; [done|].
    apply not_elem_of_cons. done.
Qed.

Lemma elem_of_removeAt (l : list Z) (x c : Z) (i : nat) :
  indexOf l x = Some i → c ∈ l → c ≠ x → c ∈ removeAt l i.
Proof.
  intros Hi Hc Hne. destruct (indexOf_split l x i Hi) as (before & after & -> & <- & _).
  rewrite removeAt_middle. apply elem_of_app.
  apply elem_of_app in Hc as [?|Hc]; [by left|].
  apply elem_of_cons in Hc as [?|?]; [done|by right].
Qed.

Lemma elem_of_replaceAt (l : list Z) (x y c : Z) (i : nat) :
  indexOf l x = Some i → (c ∈ l ∧ c ≠ x) ∨ c = y → c ∈ replaceAt l i y.
Proof.
  intros Hi Hc. destruct (indexOf_split l x i Hi) as (before & after & -> & <- & _).
  rewrite replaceAt_middle. apply elem_of_app. destruct Hc as [[Hc Hne]| ->].
  - apply elem_of_app in Hc as [?|Hc]; [by left|]. right.
    apply elem_of_cons in Hc as [?|?]; [done|]. apply elem_of_cons. by right.
  - right. apply elem_of_cons. by left.
Qed.

Lemma runOp_parentsListChildren h s op :
  parentsListChildren s →
  ¬ collapsesRoot s op →
  match runOp op h s with
  | Returned _ _ s' => parentsListChildren s'
  | _ => True
  end.
Proof.
  intros (Hcounter & Hsym) Hnot.
  destruct op; unfold runOp, startContext, endContext; unfold_delete; simpl.
  all: repeat step.
  all: try done.
  all: unfold parentsListChildren; simpl; (split; [lia|]).
  all: try done.
  all: intros child parentId Hchild; simpl in *; lookups.
  all: try match goal with
       | H : parentIdById _ !! _ = Some _ |- _ =>
           let Hnz := fresh "Hnz" in
           let Hlist := fresh "Hlist" in
           destruct (Hsym _ _ H) as [Hnz Hlist]
       end.
  all: repeat match goal with
       | H : ?x = _, H' : context [match ?x with _ => _ end] |- _ => rewrite H in H'
       end.
  all: try done.
  all: repeat match goal with
       | H : truthy _ = true |- _ =>
           unfold truthy in H; apply negb_true_iff, Z.eqb_neq in H
       | H : truthy _ = false |- _ =>
           unfold truthy in H; apply negb_false_iff, Z.eqb_eq in H
       | H : _ ∈ [_] |- _ => apply list_elem_of_singleton in H
       end.
  all: subst; try done; try lia.
  all: split; [first [assumption | lia | congruence]|].
  all: try first [ assumption
                 | by (eapply elem_of_removeAt; eauto)
                 | by (eapply elem_of_replaceAt; eauto)
                 | by (apply elem_of_app; right; apply list_elem_of_singleton)
                 | by (apply elem_of_app; left)
                 | by apply list_elem_of_singleton ].
  all: exfalso; apply Hnot; split; [done|].
  all: repeat match goal with
       | H : ?x = _ |- context [match ?x with _ => _ end] => rewrite H
       end.
  all: done.
Qed.

(** X17: every operation that returns keeps the parent-child symmetry (an id
    with a parent entry is non-zero and listed among that parent's children),
    except the deletion of a parentless context with a single child, which
    leaves the child's parent entry behind. *)
Theorem parentsListChildren_kept h s op :
  parentsListChildren s →
  ¬ collapsesRoot s op →
  match runOp op h s with
  | Returned _ _ s' => parentsListChildren s'
  | _ => True
  end.
Proof. apply runOp_parentsListChildren. Qed.

(** ** startContext followed by endContext *)

(** X18: a context started under a registered parent and then closed with an
    ast node of its id hands the parent back: [endContext] returns the parent
    context, the new id is registered as a closed ast node and not as an open
    context, and it is the last child of the parent. *)
Theorem start_end_returns_parent h s nodeKind tokenIndexStart maybeTokenStart
    parentNode parent isLeaf attributeIndex :
  nodes h !! parentNode = Some parent →
  contextNodeById (nodeIdMapCollection s) !! id parent = Some parentNode →
  id parent ≠ idCounter s + 1 →
  ∃ node h1 s1 astNode h2 s2 h3 s3,
    startContext nodeKind tokenIndexStart maybeTokenStart (Some parentNode) h s
      = Returned node h1 s1
    ∧ newAst (Ast.mkTNode (idCounter s + 1) nodeKind isLeaf attributeIndex) h1 s1
      = Returned astNode h2 s2
    ∧ endContext node astNode h2 s2 = Returned (Some parentNode) h3 s3
    ∧ astNodeById (nodeIdMapCollection s3) !! (idCounter s + 1) = Some astNode
    ∧ contextNodeById (nodeIdMapCollection s3) !! (idCounter s + 1) = None
    ∧ childIdsById (nodeIdMapCollection s3) !! id parent
      = Some (default [] (childIdsById (nodeIdMapCollection s) !! id parent)
              ++ [idCounter s + 1]).
Proof.
  intros Hparent Hreg Hne.
  destruct s as [r [am cm pm chm] n leaves]. simpl in *.
  assert (Hne' : n + 1 ≠ id parent) by congruence.
  unfold startContext. unfold_M. rewrite Hparent. simpl.
  unfold newAst.
  set (node := fresh (dom (<[parentNode := _]> (nodes h)))).
  set (astNode := fresh (dom (asts h))).
  set (created := mkNode (n + 1) nodeKind tokenIndexStart maybeTokenStart 0 None
                         (Some (attributeCounter parent))).
  set (ast := Ast.mkTNode (n + 1) nodeKind isLeaf attributeIndex).
  destruct (chm !! id parent) as [existing|] eqn:Hexisting; simpl.
  all: do 8 eexists; (split; [reflexivity|]); (split; [reflexivity|]).
  all: rewrite (endContext_registered _ _ node astNode created ast);
    try done; simpl; try (by rewrite lookup_insert_eq).
  all: rewrite !lookup_insert_eq; simpl.
  all: rewrite lookup_insert_ne, Hreg by done.
  all: (split; [reflexivity|]); simpl.
  all: rewrite !lookup_insert_eq, lookup_delete_eq; done.
Qed.

(** ** References always resolve *)



(** ** The deep copy as a backup *)


(** ** Instances of the properties above *)

Lemma endContext_twice_throws_witness :
  ∃ parent h' s',
    endContext 3%positive 3%positive worldWrapperAst.1 worldWrapperAst.2
      = Returned parent h' s'
    ∧ endContext 3%positive 3%positive h' s'
      = Thrown (CommonError.InvariantError "context was already ended") h' s'.
Proof.
  apply (endContext_twice_throws worldWrapperAst.1 worldWrapperAst.2 3%positive 3%positive
           3%positive (mkNode 3 Ast.ParenthesizedExpression 1 None 1 None (Some 1))
           (Ast.mkTNode 3 Ast.ParenthesizedExpression false (Some 1))
           (Ast.mkTNode 3 Ast.ParenthesizedExpression false (Some 1)));
    try (vm_compute; reflexivity).
  vm_compute. eauto.
Defined.

Lemma endContext_id_mismatch_witness :
  endContext 5%positive 3%positive worldWrapperAst.1 worldWrapperAst.2
  = Thrown (CommonError.InvariantError "contextNode and astNode have different nodeIds")
      worldWrapperAst.1 worldWrapperAst.2.
Proof.
  apply (endContext_id_mismatch worldWrapperAst.1 worldWrapperAst.2 5%positive 3%positive
           (mkNode 5 Ast.Csv 2 None 0 None (Some 2))
           (Ast.mkTNode 3 Ast.ParenthesizedExpression false (Some 1)));
    try (vm_compute; reflexivity).
  vm_compute. discriminate.
Defined.

Lemma deleteContext_unregistered_witness :
  deleteContext 1 worldRootDeleted.1 worldRootDeleted.2
  = Thrown (CommonError.InvariantError "nodeId not in state.")
      worldRootDeleted.1 worldRootDeleted.2.
Proof.
  apply (deleteContext_unregistered worldRootDeleted.1 worldRootDeleted.2 1).
  vm_compute. reflexivity.
Defined.

Lemma deleteContext_twice_throws_witness :
  deleteContext 2
    (after (deleteContext 2 worldOpenChild.1 worldOpenChild.2)
           (worldOpenChild.1, worldOpenChild.2)).1
    (after (deleteContext 2 worldOpenChild.1 worldOpenChild.2)
           (worldOpenChild.1, worldOpenChild.2)).2
  = Thrown (CommonError.InvariantError "nodeId not in state.")
      (after (deleteContext 2 worldOpenChild.1 worldOpenChild.2)
             (worldOpenChild.1, worldOpenChild.2)).1
      (after (deleteContext 2 worldOpenChild.1 worldOpenChild.2)
             (worldOpenChild.1, worldOpenChild.2)).2.
Proof.
  apply (deleteContext_twice_throws worldOpenChild.1 worldOpenChild.2 2 (Some 1%positive)).
  vm_compute. reflexivity.
Defined.

Lemma deleteContext_after_end_throws_witness :
  deleteContext (id (mkNode 3 Ast.ParenthesizedExpression 1 None 1 None (Some 1)))
    (after (endContext 3%positive 3%positive worldWrapperAst.1 worldWrapperAst.2)
           (worldWrapperAst.1, worldWrapperAst.2)).1
    (after (endContext 3%positive 3%positive worldWrapperAst.1 worldWrapperAst.2)
           (worldWrapperAst.1, worldWrapperAst.2)).2
  = Thrown (CommonError.InvariantError "nodeId not in state.")
      (after (endContext 3%positive 3%positive worldWrapperAst.1 worldWrapperAst.2)
             (worldWrapperAst.1, worldWrapperAst.2)).1
      (after (endContext 3%positive 3%positive worldWrapperAst.1 worldWrapperAst.2)
             (worldWrapperAst.1, worldWrapperAst.2)).2.
Proof.
  apply (deleteContext_after_end_throws worldWrapperAst.1 worldWrapperAst.2 3%positive
           3%positive (mkNode 3 Ast.ParenthesizedExpression 1 None 1 None (Some 1))
           (Some 1%positive));
    vm_compute; reflexivity.
Defined.

Lemma deleteContext_not_a_child_witness :
  deleteContext 2 worldStaleParent.1 worldStaleParent.2
  = Thrown (CommonError.InvariantError "childId isn't a child of parentId")
      worldStaleParent.1
      (with_leafNodeIds worldStaleParent.2
         (leavesWithout (leafNodeIds worldStaleParent.2) 2)).
Proof.
  apply (deleteContext_not_a_child worldStaleParent.1 worldStaleParent.2 2 2%positive 1 [3]);
    try (vm_compute; reflexivity).
  - done.
  - apply (bool_decide_unpack _). vm_compute. exact I.
Defined.

Lemma start_delete_round_trip_witness :
  ∃ node h1 s1 h2 s2,
    startContext Ast.Csv 3 None None worldThreeGenerations.1 worldThreeGenerations.2
      = Returned node h1 s1
    ∧ deleteContext (idCounter worldThreeGenerations.2 + 1) h1 s1 = Returned None h2 s2
    ∧ nodeIdMapCollection s2 = nodeIdMapCollection worldThreeGenerations.2
    ∧ leafNodeIds s2 = leafNodeIds worldThreeGenerations.2
    ∧ root s2 = root worldThreeGenerations.2
    ∧ idCounter s2 = idCounter worldThreeGenerations.2 + 1.
Proof.
  apply (start_delete_round_trip worldThreeGenerations.1 worldThreeGenerations.2
           Ast.Csv 3 None);
    try (vm_compute; reflexivity).
  apply (bool_decide_unpack _). vm_compute. exact I.
Defined.

Lemma start_child_delete_round_trip_witness :
  ∃ node h1 s1 h2 s2,
    startContext Ast.Csv 3 None (Some 1%positive)
      worldThreeGenerations.1 worldThreeGenerations.2 = Returned node h1 s1
    ∧ deleteContext (idCounter worldThreeGenerations.2 + 1) h1 s1
      = Returned (Some 1%positive) h2 s2
    ∧ contextNodeById (nodeIdMapCollection s2)
      = contextNodeById (nodeIdMapCollection worldThreeGenerations.2)
    ∧ astNodeById (nodeIdMapCollection s2)
      = astNodeById (nodeIdMapCollection worldThreeGenerations.2)
    ∧ parentIdById (nodeIdMapCollection s2)
      = parentIdById (nodeIdMapCollection worldThreeGenerations.2)
    ∧ childIdsById (nodeIdMapCollection s2)
      = <[id (mkNode 1 Ast.ListExpression 0 None 3 None None) :=
            default [] (childIdsById (nodeIdMapCollection worldThreeGenerations.2)
                          !! id (mkNode 1 Ast.ListExpression 0 None 3 None None))]>
          (childIdsById (nodeIdMapCollection worldThreeGenerations.2))
    ∧ leafNodeIds s2 = leafNodeIds worldThreeGenerations.2
    ∧ idCounter s2 = idCounter worldThreeGenerations.2 + 1
    ∧ nodes h2 !! 1%positive
      = Some (with_attributeCounter (mkNode 1 Ast.ListExpression 0 None 3 None None)
                (attributeCounter (mkNode 1 Ast.ListExpression 0 None 3 None None) + 1)).
Proof.
  apply (start_child_delete_round_trip worldThreeGenerations.1 worldThreeGenerations.2
           Ast.Csv 3 None 1%positive (mkNode 1 Ast.ListExpression 0 None 3 None None));
    try (vm_compute; reflexivity).
  - done.
  - apply (bool_decide_unpack _). vm_compute. exact I.
  - apply (bool_decide_unpack _). vm_compute. exact I.
Defined.

Lemma idsAllocated_invariant_witness :
  idsAllocated (runOps sessionOps (emptyHeap, empty)).2
  ∧ contextNodeById (nodeIdMapCollection (runOps sessionOps (emptyHeap, empty)).2)
      !! (idCounter (runOps sessionOps (emptyHeap, empty)).2 + 1) = None
  ∧ astNodeById (nodeIdMapCollection (runOps sessionOps (emptyHeap, empty)).2)
      !! (idCounter (runOps sessionOps (emptyHeap, empty)).2 + 1) = None.
Proof.
  apply (idsAllocated_invariant sessionOps emptyHeap empty).
  apply (bool_decide_unpack _). vm_compute. exact I.
Defined.

Lemma registeredUnderOwnId_invariant_witness :
  registeredUnderOwnId (runOps sessionOps (emptyHeap, empty)).1
                       (runOps sessionOps (emptyHeap, empty)).2.
Proof.
  apply (registeredUnderOwnId_invariant sessionOps emptyHeap empty).
  apply (bool_decide_unpack _). vm_compute. exact I.
Defined.


Lemma deleteContext_root_collapse_keeps_parent_entry_witness :
  ∃ h' s',
    deleteContext 1 worldOpenChild.1 worldOpenChild.2 = Returned None h' s'
    ∧ parentIdById (nodeIdMapCollection s') !! 2 = Some 1
    ∧ contextNodeById (nodeIdMapCollection s') !! 1 = None
    ∧ childIdsById (nodeIdMapCollection s') !! 1 = None.
Proof.
  apply (deleteContext_root_collapse_keeps_parent_entry worldOpenChild.1 worldOpenChild.2
           1 1%positive 2);
    try (vm_compute; reflexivity).
  - apply (bool_decide_unpack _). vm_compute. exact I.
  - right. vm_compute. eauto.
Defined.

Lemma deleteContext_after_root_collapse_throws_witness :
  ∃ h' s' e h'' s'',
    deleteContext 1 worldOpenChild.1 worldOpenChild.2 = Returned None h' s'
    ∧ maybeNode (root s') = Some 2%positive
    ∧ deleteContext 2 h' s' = Thrown e h'' s''.
Proof.
  apply (deleteContext_after_root_collapse_throws worldOpenChild.1 worldOpenChild.2
           1 1%positive 2 2%positive);
    try (vm_compute; reflexivity).
  - apply (bool_decide_unpack _). vm_compute. exact I.
  - done.
Defined.

Lemma parentsListChildren_kept_witness :
  match runOp (OpDelete 3) worldThreeGenerations.1 worldThreeGenerations.2 with
  | Returned _ _ s' => parentsListChildren s'
  | _ => True
  end.
Proof.
  apply (parentsListChildren_kept worldThreeGenerations.1 worldThreeGenerations.2
           (OpDelete 3)).
  - apply (bool_decide_unpack _). vm_compute. exact I.
  - apply (bool_decide_unpack _). vm_compute. exact I.
Defined.

Lemma start_end_returns_parent_witness :
  ∃ node h1 s1 astNode h2 s2 h3 s3,
    startContext Ast.Csv 3 None (Some 1%positive)
      worldThreeGenerations.1 worldThreeGenerations.2 = Returned node h1 s1
    ∧ newAst (Ast.mkTNode (idCounter worldThreeGenerations.2 + 1) Ast.Csv false (Some 3))
        h1 s1 = Returned astNode h2 s2
    ∧ endContext node astNode h2 s2 = Returned (Some 1%positive) h3 s3
    ∧ astNodeById (nodeIdMapCollection s3) !! (idCounter worldThreeGenerations.2 + 1)
      = Some astNode
    ∧ contextNodeById (nodeIdMapCollection s3) !! (idCounter worldThreeGenerations.2 + 1)
      = None
    ∧ childIdsById (nodeIdMapCollection s3)
        !! id (mkNode 1 Ast.ListExpression 0 None 3 None None)
      = Some (default [] (childIdsById (nodeIdMapCollection worldThreeGenerations.2)
                            !! id (mkNode 1 Ast.ListExpression 0 None 3 None None))
              ++ [idCounter worldThreeGenerations.2 + 1]).
Proof.
  apply (start_end_returns_parent worldThreeGenerations.1 worldThreeGenerations.2
           Ast.Csv 3 None 1%positive (mkNode 1 Ast.ListExpression 0 None 3 None None)
           false (Some 3));
    try (vm_compute; reflexivity).
  vm_compute. discriminate.
Defined.



